(** * Backend/app.py: the literature query endpoint

    A shallow embedding of [Backend/app.py]: the lazy embedding-model loader
    [get_embedding_model], the search client [fetch_europepmc] and the
    request handler [query_literature], followed by the properties of the
    handler that the specification states.

    Conventions.
    - A Python [str] is a list of Unicode code points, so that [len], slicing
      and [strip] count characters the way Python does.
    - A decoded JSON document is a value of [json].
    - Code that can raise returns a [result]; code that also reads or writes
      the module globals runs in the monad [M] over [Process].
    - Third-party collaborators (the process environment, [urllib], [httpx],
      [sentence_transformers], [numpy] and [repr] of non-scalar values) are
      fields of [World]: the handler is a function of their answers.
    - A similarity score is a Python float, [pyfloat]: a number, an infinity
      or a NaN, compared the way Python compares floats. *)

From Stdlib Require Import String Ascii DecimalString.
From Stdlib Require Import List ZArith NArith QArith Bool Lia.
From Stdlib Require Import Permutation Sorted.
Import ListNotations.

(* ------------------------------------------------------------------ *)
(** ** Python strings *)

Definition pystr := list N.

(** A literal of the source, as code points (ASCII literals only). *)
Definition py (s : string) : pystr :=
  map N_of_ascii (list_ascii_of_string s).

Fixpoint pystr_eqb (a b : pystr) : bool :=
  match a, b with
  | [], [] => true
  | x :: a', y :: b' => N.eqb x y && pystr_eqb a' b'
  | _, _ => false
  end.

(** [str.isspace] on one character: the code points CPython lists in
    [_PyUnicode_IsWhitespace]. *)
Definition isspace (c : N) : bool :=
  ((9 <=? c) && (c <=? 13) || (28 <=? c) && (c <=? 32)
   || (c =? 133) || (c =? 160) || (c =? 5760)
   || (8192 <=? c) && (c <=? 8202)
   || (c =? 8232) || (c =? 8233) || (c =? 8239) || (c =? 8287)
   || (c =? 12288))%N.

Fixpoint lstrip (s : pystr) : pystr :=
  match s with
  | [] => []
  | c :: s' => if isspace c then lstrip s' else s
  end.

Definition rstrip (s : pystr) : pystr := rev (lstrip (rev s)).

(** [s.strip()] *)
Definition strip (s : pystr) : pystr := rstrip (lstrip s).

(** [str(n)] for an [int]. *)
Definition str_of_int (n : Z) : pystr :=
  py (NilZero.string_of_int (Z.to_int n)).

(** The em dash of the citation format, U+2014. *)
Definition em_dash : N := 8212%N.

(* ------------------------------------------------------------------ *)
(** ** Exceptions and results *)

(** An instance of a subclass of [Exception]: its class name and [str(e)]. *)
Record exn := Exc { exc_class : string; exc_msg : pystr }.

Inductive result (A : Type) : Type :=
| Ret (a : A)
| Raise (e : exn).
Arguments Ret {A} a.
Arguments Raise {A} e.

Definition rbind {A B} (r : result A) (k : A -> result B) : result B :=
  match r with
  | Ret a => k a
  | Raise e => Raise e
  end.

Declare Scope res_scope.
Delimit Scope res_scope with res.
Notation "x <- r ;; k" := (rbind r (fun x => k))
  (at level 61, r at next level, right associativity) : res_scope.

(** A [for] loop that builds a list, stopping at the first exception. *)
Fixpoint rmap {A B} (f : A -> result B) (l : list A) : result (list B) :=
  match l with
  | [] => Ret []
  | a :: l' =>
      (b <- f a ;; bs <- rmap f l' ;; Ret (b :: bs))%res
  end.

Definition AttributeError : exn :=
  Exc "AttributeError" (py "object has no attribute 'get'").
Definition TypeError : exn := Exc "TypeError" [].
Definition IndexError : exn := Exc "IndexError" (py "list index out of range").

(** [l[i]] on a list. *)
Definition index {A} (l : list A) (i : nat) : result A :=
  match nth_error l i with
  | Some a => Ret a
  | None => Raise IndexError
  end.

(* ------------------------------------------------------------------ *)
(** ** Decoded JSON *)

(** What [r.json()] returns.  A [JDict] lists the items of the dict in
    insertion order; a [JFloat] is a finite float. *)
#[local] Set Warnings "-register-all".
Inductive json : Type :=
| JNull
| JBool (b : bool)
| JInt (n : Z)
| JFloat (q : Q)
| JStr (s : pystr)
| JList (l : list json)
| JDict (d : list (pystr * json)).

(** Truth value of an object, as [or] and [if] test it. *)
Definition truthy (v : json) : bool :=
  match v with
  | JNull => false
  | JBool b => b
  | JInt n => negb (n =? 0)%Z
  | JFloat q => negb (Qeq_bool q 0)
  | JStr s => match s with [] => false | _ => true end
  | JList l => match l with [] => false | _ => true end
  | JDict d => match d with [] => false | _ => true end
  end.

(** [a or b], with [b] already evaluated (every right operand in the source
    is free of effects and of exceptions, or is guarded by the caller). *)
Definition py_or (a b : json) : json := if truthy a then a else b.

Fixpoint dict_lookup (d : list (pystr * json)) (k : pystr) : option json :=
  match d with
  | [] => None
  | (k', v) :: d' => if pystr_eqb k' k then Some v else dict_lookup d' k
  end.

(** [obj.get(key, default)]: only a dict has the method. *)
Definition py_get (obj : json) (key : pystr) (default : json) : result json :=
  match obj with
  | JDict d =>
      match dict_lookup d key with
      | Some v => Ret v
      | None => Ret default
      end
  | _ => Raise AttributeError
  end.

(** The elements a [for] loop visits. *)
Definition py_iter (v : json) : result (list json) :=
  match v with
  | JList l => Ret l
  | JStr s => Ret (map (fun c => JStr [c]) s)
  | JDict d => Ret (map (fun kv => JStr (fst kv)) d)
  | _ => Raise TypeError
  end.

(** [v[:n]] *)
Definition py_slice_to (n : nat) (v : json) : result json :=
  match v with
  | JStr s => Ret (JStr (firstn n s))
  | JList l => Ret (JList (firstn n l))
  | _ => Raise TypeError
  end.

(** [len(v)] *)
Definition py_len (v : json) : result nat :=
  match v with
  | JStr s => Ret (length s)
  | JList l => Ret (length l)
  | JDict d => Ret (length d)
  | _ => Raise TypeError
  end.

(** [a + b] for a left operand that is a [str] or a list, as a slice is. *)
Definition py_add (a b : json) : result json :=
  match a, b with
  | JStr s, JStr t => Ret (JStr (s ++ t))
  | JList l, JList m => Ret (JList (l ++ m))
  | _, _ => Raise TypeError
  end.

(** [str(v)], which is also what an f-string field and [str.format] insert.
    [repr_of] stands for Python's [repr] of floats, lists and dicts. *)
Definition py_str (repr_of : json -> pystr) (v : json) : pystr :=
  match v with
  | JStr s => s
  | JNull => py "None"
  | JBool true => py "True"
  | JBool false => py "False"
  | JInt n => str_of_int n
  | _ => repr_of v
  end.

(* ------------------------------------------------------------------ *)
(** ** [sorted(xs, key=..., reverse=...)]

    [sorted] computes every key once, left to right, and then sorts the
    keyed items with a stable sort that compares keys with [<] only.  With
    [reverse=True] CPython reverses the list, sorts it and reverses the
    outcome, which keeps items with equal keys in their original order.
    The stable sort is written as an insertion sort.  Where [<] is a strict
    weak order on the keys every stable sort computes the same list.  With
    a NaN among the keys it is not; the insertion sort then still leaves a
    list as it is when no item is below the one before it, as CPython's
    sort does with such a list, which it takes for one run. *)

Section PySorted.
Variables (K A : Type).
Variable ltb : K -> K -> bool.

Fixpoint insert_keyed (x : K * A) (l : list (K * A)) : list (K * A) :=
  match l with
  | [] => [x]
  | y :: l' =>
      if ltb (fst y) (fst x) then y :: insert_keyed x l'
      else x :: y :: l'
  end.

Fixpoint stable_sort (l : list (K * A)) : list (K * A) :=
  match l with
  | [] => []
  | x :: l' => insert_keyed x (stable_sort l')
  end.

Definition sort_keyed (reverse : bool) (l : list (K * A)) : list (K * A) :=
  if reverse then rev (stable_sort (rev l)) else stable_sort l.

Definition py_sorted (xs : list A) (key : A -> result K) (reverse : bool)
  : result (list A) :=
  (keyed <- rmap (fun x => k <- key x ;; Ret (k, x)) xs ;;
   Ret (map snd (sort_keyed reverse keyed)))%res.

(** The order of the outcome, stated for items whose position in the list
    given to [sorted] is compared by [earlier]. *)
Variable earlier : A -> A -> Prop.

(** [x] may stand before [y] in an ascending stable sort of a list whose
    items arrive latest first. *)
Definition asc_latest_first (x y : K * A) : Prop :=
  ltb (fst y) (fst x) = false /\
  (ltb (fst x) (fst y) = false -> earlier (snd y) (snd x)).

(** [x] may stand before [y] in the outcome of [reverse=True]: the key of
    [x] is not below the key of [y], and with equal keys [x] came first. *)
Definition desc_stable (x y : K * A) : Prop :=
  ltb (fst x) (fst y) = false /\
  (ltb (fst y) (fst x) = false -> earlier (snd x) (snd y)).
End PySorted.
Arguments insert_keyed {K A} ltb x l.
Arguments stable_sort {K A} ltb l.
Arguments sort_keyed {K A} ltb reverse l.
Arguments py_sorted {K A} ltb xs key reverse.
Arguments asc_latest_first {K A} ltb earlier x y.
Arguments desc_stable {K A} ltb earlier x y.

(** A Python float: a finite number, an infinity or a NaN. *)
Inductive pyfloat : Type :=
| FNum (q : Q)
| FPosInf
| FNegInf
| FNaN.

Definition is_nan (a : pyfloat) : bool :=
  match a with
  | FNaN => true
  | _ => false
  end.

(** [a < b] on float scores: false as soon as one side is a NaN. *)
Definition score_ltb (a b : pyfloat) : bool :=
  match a, b with
  | FNaN, _ => false
  | _, FNaN => false
  | FNegInf, FNegInf => false
  | FNegInf, _ => true
  | _, FNegInf => false
  | FPosInf, _ => false
  | FNum _, FPosInf => true
  | FNum x, FNum y => negb (Qle_bool y x)
  end.

(** [a <= b] on floats. *)
Definition float_leb (a b : pyfloat) : bool :=
  match a, b with
  | FNaN, _ => false
  | _, FNaN => false
  | FNegInf, _ => true
  | _, FPosInf => true
  | FPosInf, _ => false
  | FNum _, FNegInf => false
  | FNum x, FNum y => Qle_bool x y
  end.

(** [a == b] on floats. *)
Definition float_eqb (a b : pyfloat) : bool :=
  match a, b with
  | FNum x, FNum y => Qeq_bool x y
  | FPosInf, FPosInf => true
  | FNegInf, FNegInf => true
  | _, _ => false
  end.

(** In the outcome of the ranking, [i] may stand before [j]: the score of
    [i] is at least the score of [j], and with equal scores [i < j]. *)
Definition ranked_before (scores : list pyfloat) (i j : nat) : Prop :=
  exists si sj,
    nth_error scores i = Some si /\ nth_error scores j = Some sj /\
    float_leb sj si = true /\ (float_eqb si sj = true -> (i < j)%nat).

(* ------------------------------------------------------------------ *)
(** ** The world outside the module *)

(** A row of the array [model.encode] returns. *)
Definition Emb := list pyfloat.

(** A loaded [SentenceTransformer]: only [encode] is used. *)
Record SentenceTransformer := { encode : list json -> result (list Emb) }.

(** An [httpx.Response]: its status, the message of the [HTTPStatusError]
    that [raise_for_status] builds for it, and what [r.json()] gives. *)
Record Response := {
  status_code : Z;
  status_error : pystr;
  json_body : result json
}.

Record World := {
  (** [os.environ] *)
  environ : pystr -> option pystr;
  (** [urllib.parse.quote_plus] *)
  quote_plus : pystr -> result pystr;
  (** [await client.get(url)] with the 20 second timeout: a response, or
      the exception of a timeout or of a failed connection *)
  client_get : pystr -> result Response;
  (** the import of [sentence_transformers] and the construction of the
      model, at the k-th attempt of the process (k from 0) *)
  load_SentenceTransformer : nat -> result SentenceTransformer;
  (** [import numpy as np; from numpy.linalg import norm] *)
  import_numpy : result unit;
  (** [float(np.dot(q, e) / (norm(q) * norm(e) + 1e-10))] *)
  cosine : Emb -> Emb -> result pyfloat;
  (** [repr] of floats, lists and dicts *)
  repr_of : json -> pystr
}.

(** [os.environ.get(key, default)] *)
Definition environ_get (w : World) (key default : pystr) : pystr :=
  match environ w key with
  | Some v => v
  | None => default
  end.

(* ------------------------------------------------------------------ *)
(** ** Module state *)

(** [LogWarning e] is the [logging.warning] of the loader, [LogException e]
    the [logging.exception] of the ranking step. *)
Inductive LogRecord : Type :=
| LogWarning (e : exn)
| LogException (e : exn).

(** The globals [EMB_MODEL] and [_EMB_LOADING], and three ghost fields that
    record what the process did: how many times it tried to load the model,
    the URLs it requested and its log (latest first). *)
Record Process := {
  EMB_MODEL : option SentenceTransformer;
  _EMB_LOADING : bool;
  load_attempts : nat;
  outbound : list pystr;
  log : list LogRecord
}.

(** The module just imported. *)
Definition startup : Process :=
  {| EMB_MODEL := None; _EMB_LOADING := false;
     load_attempts := 0; outbound := []; log := [] |}.

Definition set_EMB_MODEL (m : option SentenceTransformer) (p : Process) :=
  {| EMB_MODEL := m; _EMB_LOADING := _EMB_LOADING p;
     load_attempts := load_attempts p; outbound := outbound p; log := log p |}.

Definition set_EMB_LOADING (b : bool) (p : Process) :=
  {| EMB_MODEL := EMB_MODEL p; _EMB_LOADING := b;
     load_attempts := load_attempts p; outbound := outbound p; log := log p |}.

Definition count_load (p : Process) :=
  {| EMB_MODEL := EMB_MODEL p; _EMB_LOADING := _EMB_LOADING p;
     load_attempts := S (load_attempts p); outbound := outbound p;
     log := log p |}.

Definition record_get (url : pystr) (p : Process) :=
  {| EMB_MODEL := EMB_MODEL p; _EMB_LOADING := _EMB_LOADING p;
     load_attempts := load_attempts p; outbound := url :: outbound p;
     log := log p |}.

Definition record_log (r : LogRecord) (p : Process) :=
  {| EMB_MODEL := EMB_MODEL p; _EMB_LOADING := _EMB_LOADING p;
     load_attempts := load_attempts p; outbound := outbound p;
     log := r :: log p |}.

(** Computations over the module state that may raise. *)
Definition M (A : Type) : Type := Process -> result A * Process.

Definition mret {A} (a : A) : M A := fun p => (Ret a, p).

Definition mbind {A B} (c : M A) (k : A -> M B) : M B :=
  fun p =>
    match c p with
    | (Ret a, p') => k a p'
    | (Raise e, p') => (Raise e, p')
    end.

Definition lift {A} (r : result A) : M A := fun p => (r, p).

(** [try: c  except Exception as e: h e] *)
Definition try_except {A} (c : M A) (h : exn -> M A) : M A :=
  fun p =>
    match c p with
    | (Ret a, p') => (Ret a, p')
    | (Raise e, p') => h e p'
    end.

Declare Scope proc_scope.
Delimit Scope proc_scope with proc.
Notation "x <- c ;; k" := (mbind c (fun x => k))
  (at level 61, c at next level, right associativity) : proc_scope.

(* ------------------------------------------------------------------ *)
(** ** [get_embedding_model] *)

Definition is_None {A} (o : option A) : bool :=
  match o with
  | None => true
  | Some _ => false
  end.

Definition get_embedding_model (w : World) : M (option SentenceTransformer) :=
  fun p =>
    if negb (pystr_eqb (environ_get w (py "ENABLE_EMBEDDINGS") (py "0"))
                       (py "1"))
    then (Ret None, p)
    else
      let p' :=
        if is_None (EMB_MODEL p) && negb (_EMB_LOADING p) then
          let p1 := count_load (set_EMB_LOADING true p) in
          let p2 :=
            match load_SentenceTransformer w (load_attempts p) with
            | Ret m => set_EMB_MODEL (Some m) p1
            | Raise e => set_EMB_MODEL None (record_log (LogWarning e) p1)
            end in
          set_EMB_LOADING false p2
        else p in
      (Ret (EMB_MODEL p'), p').

(** The loader called [n] times in a row, as [n] requests that reach the
    ranking step do. *)
Fixpoint after_calls (w : World) (n : nat) (p : Process) : Process :=
  match n with
  | O => p
  | S n' => after_calls w n' (snd (get_embedding_model w p))
  end.

(* ------------------------------------------------------------------ *)
(** ** [fetch_europepmc] *)

Definition EUROPE_PMC_SEARCH (q : pystr) (n : Z) : pystr :=
  py "https://www.ebi.ac.uk/europepmc/webservices/rest/search?query="
  ++ q ++ py "&format=json&pageSize=" ++ str_of_int n.

(** [r.raise_for_status()]: httpx raises unless the status is 2xx. *)
Definition raise_for_status (r : Response) : result unit :=
  if ((200 <=? status_code r) && (status_code r <=? 299))%Z then Ret tt
  else Raise (Exc "HTTPStatusError" (status_error r)).

(** [await client.get(url)], recording the request. *)
Definition http_get (w : World) (u : pystr) : M Response :=
  fun p => (client_get w u, record_get u p).

Definition fetch_europepmc (w : World) (query : pystr) (n : Z) : M json :=
  (q <- lift (quote_plus w query) ;;
   r <- http_get w (EUROPE_PMC_SEARCH q n) ;;
   _ <- lift (raise_for_status r) ;;
   lift (json_body r))%proc.

(* ------------------------------------------------------------------ *)
(** ** [query_literature] *)

(** [class QueryRequest(BaseModel)]: [symptoms: str], [top_k: int = 5]. *)
Record QueryRequest := { symptoms : pystr; top_k : Z }.

(** The request built from a body that gives [symptoms] and perhaps
    [top_k]. *)
Definition QueryRequest_of (s : pystr) (k : option Z) : QueryRequest :=
  {| symptoms := s;
     top_k := match k with Some n => n | None => 5%Z end |}.

(** One entry of [results]; the field [m_x] is the key ["x"] of the dict. *)
Record Match := {
  m_title : json;
  m_abstract : json;
  m_snippet : json;
  m_journal : json;
  m_year : json;
  m_source : pystr;
  m_url : json
}.

(** The dict the handler returns. *)
Record Payload := {
  summary : pystr;
  matches : list Match;
  citations : list pystr
}.

(** How a call of the handler ends: it returns the payload (HTTP 200), it
    raises [HTTPException(status_code, detail)], or another exception
    escapes it (which FastAPI answers with a 500). *)
Inductive Reply : Type :=
| Return (r : Payload)
| HTTPException (code : Z) (detail : pystr)
| Unhandled (e : exn).

Definition http_status (r : Reply) : Z :=
  match r with
  | Return _ => 200
  | HTTPException c _ => c
  | Unhandled _ => 500
  end.

(** The body of the loop over the hits: the entry appended to [results] and
    the text appended to [abstracts]. *)
Definition parse_hit (w : World) (hit : json) : result (Match * json) :=
  (title <- py_get hit (py "title") JNull ;;
   a <- py_get hit (py "abstractText") JNull ;;
   let abstract := py_or a (JStr []) in
   j <- py_get hit (py "journalTitle") JNull ;;
   let journal := py_or j (JStr []) in
   y <- py_get hit (py "pubYear") JNull ;;
   let year := py_or y (JStr []) in
   pm <- py_get hit (py "pmcid") JNull ;;
   pmcid <- (if truthy pm then Ret pm else py_get hit (py "id") JNull) ;;
   src <- py_get hit (py "source") JNull ;;
   let url :=
     if truthy src then src
     else JStr (py "https://europepmc.org/article/pmc/"
                ++ py_str (repr_of w) pmcid) in
   head <- py_slice_to 400 abstract ;;
   n <- py_len abstract ;;
   snippet <- py_add head (JStr (if 400 <? n then py "..." else [])) ;;
   Ret ({| m_title := title; m_abstract := abstract; m_snippet := snippet;
           m_journal := journal; m_year := year;
           m_source := py "EuropePMC"; m_url := url |},
        py_or abstract (py_or title (JStr []))))%res.

(** [data.get("resultList", {}).get("result", [])], as the loop walks it. *)
Definition hits_of (data : json) : result (list json) :=
  (rl <- py_get data (py "resultList") (JDict []) ;;
   res <- py_get rl (py "result") (JList []) ;;
   py_iter res)%res.

(** Step 1, after the search: [results] and [abstracts], entry by entry. *)
Definition parse_hits (w : World) (data : json)
  : result (list (Match * json)) :=
  (hits <- hits_of data ;; rmap (parse_hit w) hits)%res.

(** Lines 87 to 95: the score of every abstract. *)
Definition score_documents (w : World) (model : SentenceTransformer)
    (symptoms : pystr) (abstracts : list json) : result (list pyfloat) :=
  (qs <- encode model [JStr symptoms] ;;
   query_emb <- index qs 0 ;;
   doc_embs <- encode model abstracts ;;
   _ <- import_numpy w ;;
   rmap (cosine w query_emb) doc_embs)%res.

(** [sorted(range(len(results)), key=lambda i: scores[i], reverse=True)] *)
Definition ranking_order (n : nat) (scores : list pyfloat)
  : result (list nat) :=
  py_sorted score_ltb (seq 0 n) (fun i => index scores i) true.

(** [[results[i] for i in order]] *)
Definition reorder (results : list Match) (order : list nat)
  : result (list Match) :=
  rmap (index results) order.

(** The body of the [try] of step 2; its value is [results] as the body
    leaves it. *)
Definition rank_body (w : World) (symptoms : pystr) (results : list Match)
    (abstracts : list json) : M (list Match) :=
  (model <- get_embedding_model w ;;
   match model, abstracts with
   | Some m, _ :: _ =>
       lift (scores <- score_documents w m symptoms abstracts ;;
             order <- ranking_order (length results) scores ;;
             reorder results order)%res
   | _, _ => mret results
   end)%proc.

(** Step 2: the [try] with its [except Exception]. *)
Definition rank (w : World) (symptoms : pystr) (results : list Match)
    (abstracts : list json) : M (list Match) :=
  try_except (rank_body w symptoms results abstracts)
    (fun e p => (Ret results, record_log (LogException e) p)).

Definition summary_placeholder (n : nat) : pystr :=
  py "SUMMARY (placeholder): Found " ++ str_of_int (Z.of_nat n)
  ++ py " articles. Replace this with LLM-generated educational summary that cites sources.".

(** [f"{r['title']} — {r['journal']} ({r['year']}) — {r['url']}"] *)
Definition citation (w : World) (r : Match) : pystr :=
  py_str (repr_of w) (m_title r) ++ [32; em_dash; 32]%N
  ++ py_str (repr_of w) (m_journal r) ++ py " ("
  ++ py_str (repr_of w) (m_year r) ++ [41; 32; em_dash; 32]%N
  ++ py_str (repr_of w) (m_url r).

(** Steps 3 and 4. *)
Definition build_response (w : World) (results : list Match) : Payload :=
  {| summary := summary_placeholder (length results);
     matches := results;
     citations := map (citation w) results |}.

Definition query_literature (w : World) (req : QueryRequest)
  : Process -> Reply * Process :=
  fun p =>
    let symptoms := strip (symptoms req) in
    match symptoms with
    | [] => (HTTPException 400 (py "No symptoms provided"), p)
    | _ :: _ =>
        match fetch_europepmc w symptoms (top_k req) p with
        | (Raise e, p1) => (HTTPException 502 (exc_msg e), p1)
        | (Ret data, p1) =>
            match parse_hits w data with
            | Raise e => (Unhandled e, p1)
            | Ret parsed =>
                let results := map fst parsed in
                let abstracts := map snd parsed in
                match rank w symptoms results abstracts p1 with
                | (Raise e, p2) => (Unhandled e, p2)
                | (Ret results', p2) =>
                    (Return (build_response w results'), p2)
                end
            end
        end
    end.

(* ------------------------------------------------------------------ *)
(** ** Sample requests and worlds

    Concrete inputs on which the handler is evaluated below. *)

(** A hit whose fields are all strings. *)
Definition sample_hit (fields : list (string * string)) : json :=
  JDict (map (fun kv => (py (fst kv), JStr (py (snd kv)))) fields).

(** Three hits; the second has no title and the longest abstract. *)
Definition sample_hits : list json :=
  [ sample_hit [("title", "Fever in adults"); ("abstractText", "abc");
                ("journalTitle", "BMJ"); ("pubYear", "2020");
                ("pmcid", "PMC1")];
    sample_hit [("abstractText", "abcde"); ("id", "77")];
    sample_hit [("title", "Cough"); ("abstractText", "xyz");
                ("source", "MED")] ]%string.

Definition body_of (hits : json) : json :=
  JDict [(py "resultList", JDict [(py "result", hits)])].

Definition ok_response (body : json) : Response :=
  {| status_code := 200; status_error := []; json_body := Ret body |}.

(** A model that embeds a text as the one-dimensional vector of its
    length. *)
Definition sample_model : SentenceTransformer :=
  {| encode := fun texts =>
       Ret (map (fun v => match v with
                          | JStr s => [FNum (inject_Z (Z.of_nat (length s)))]
                          | _ => [FNum 0]
                          end) texts) |}.

(** A world with the given value of [ENABLE_EMBEDDINGS], answer of the
    search service and outcomes of the model load. *)
Definition sample_world (flag : option string) (answer : result Response)
    (load : nat -> result SentenceTransformer) : World :=
  {| environ := fun k =>
       if pystr_eqb k (py "ENABLE_EMBEDDINGS") then option_map py flag
       else None;
     quote_plus := fun s =>
       Ret (map (fun c => if (c =? 32)%N then 43%N else c) s);
     client_get := fun _ => answer;
     load_SentenceTransformer := load;
     import_numpy := Ret tt;
     cosine := fun _ e => Ret (hd (FNum 0) e);
     repr_of := fun _ => py "?" |}.

Definition ImportError : exn :=
  Exc "ImportError" (py "No module named 'sentence_transformers'").

Definition ConnectTimeout : exn := Exc "ConnectTimeout" (py "timed out").

(** Embeddings on, the service answers with the three hits. *)
Definition world_ranked : World :=
  sample_world (Some "1"%string)
    (Ret (ok_response (body_of (JList sample_hits))))
    (fun _ => Ret sample_model).

(** Embeddings off. *)
Definition world_unranked : World :=
  sample_world None (Ret (ok_response (body_of (JList sample_hits))))
    (fun _ => Ret sample_model).

(** Embeddings on, but the model never loads. *)
Definition world_no_model : World :=
  sample_world (Some "1"%string)
    (Ret (ok_response (body_of (JList sample_hits))))
    (fun _ => Raise ImportError).

(** The service cannot be reached. *)
Definition world_down : World :=
  sample_world None (Raise ConnectTimeout) (fun _ => Raise ImportError).

(** The service answers 503. *)
Definition world_503 : World :=
  sample_world None
    (Ret {| status_code := 503;
            status_error := py "Server error '503 Service Unavailable'";
            json_body := Ret JNull |})
    (fun _ => Raise ImportError).

(** The service answers with the given body. *)
Definition world_body (body : json) : World :=
  sample_world None (Ret (ok_response body)) (fun _ => Raise ImportError).

Definition sample_request : QueryRequest :=
  QueryRequest_of (py " fever cough ") (Some 3%Z).

Definition RuntimeError : exn := Exc "RuntimeError" (py "CUDA out of memory").

(** Embeddings on, the model loads, but encoding raises. *)
Definition world_bad_model : World :=
  sample_world (Some "1"%string)
    (Ret (ok_response (body_of (JList sample_hits))))
    (fun _ => Ret {| encode := fun _ => Raise RuntimeError |}).

(** A hit whose abstract has 401 characters. *)
Definition long_hit : json :=
  JDict [(py "title", JStr (py "Long"));
         (py "abstractText", JStr (repeat 97%N 401))].

(** The fields of a hit that has no title. *)
Definition untitled : list (pystr * json) :=
  [(py "abstractText", JStr (py "abcde")); (py "id", JStr (py "77"))].

(** Three hits whose abstracts have 1, 5 and 2 characters. *)
Definition nan_hits : list json :=
  [ sample_hit [("title", "one"); ("abstractText", "a")];
    sample_hit [("title", "two"); ("abstractText", "abcde")];
    sample_hit [("title", "three"); ("abstractText", "ab")] ]%string.

(** A model that embeds a text as its length, and a text of five
    characters as a NaN. *)
Definition nan_model : SentenceTransformer :=
  {| encode := fun texts =>
       Ret (map (fun v => match v with
                          | JStr s =>
                              if (length s =? 5)%nat then [FNaN]
                              else [FNum (inject_Z (Z.of_nat (length s)))]
                          | _ => [FNum 0]
                          end) texts) |}.

(** Embeddings on; the hits get the scores 1, NaN and 2. *)
Definition world_nan : World :=
  sample_world (Some "1"%string)
    (Ret (ok_response (body_of (JList nan_hits))))
    (fun _ => Ret nan_model).

(* ------------------------------------------------------------------ *)
(** ** Vocabulary of the properties *)

(** [c] is [f"{title} — {journal} ({year}) — {url}"] for the record [r]. *)
Definition citation_of (w : World) (r : Match) (c : pystr) : Prop :=
  c = py_str (repr_of w) (m_title r) ++ [32; em_dash; 32]%N
      ++ py_str (repr_of w) (m_journal r) ++ py " ("
      ++ py_str (repr_of w) (m_year r) ++ py ")" ++ [32; em_dash; 32]%N
      ++ py_str (repr_of w) (m_url r).

(** A hit the loop body accepts: a JSON object whose ["abstractText"] is
    missing, falsy or a string. *)
Definition hit_parses (hit : json) : bool :=
  match hit with
  | JDict d =>
      match dict_lookup d (py "abstractText") with
      | None => true
      | Some a => match py_or a (JStr []) with
                  | JStr _ => true
                  | _ => false
                  end
      end
  | _ => false
  end.

(** [ENABLE_EMBEDDINGS] is set to ["1"]. *)
Definition embeddings_enabled (w : World) : bool :=
  pystr_eqb (environ_get w (py "ENABLE_EMBEDDINGS") (py "0")) (py "1").

(** The k-th attempt to load the model fails. *)
Definition load_fails (w : World) (k : nat) : Prop :=
  exists e, load_SentenceTransformer w k = Raise e.

(** The decoded body has no result list: no ["resultList"], or a
    ["resultList"] object without ["result"]. *)
Definition result_list_absent (data : json) : Prop :=
  exists d,
    data = JDict d
    /\ (dict_lookup d (py "resultList") = None
        \/ exists d', dict_lookup d (py "resultList") = Some (JDict d')
                      /\ dict_lookup d' (py "result") = None).

(** Two requests, one after the other, in the same process. *)
Definition two_requests (w : World) (req : QueryRequest) (p : Process)
  : Process :=
  snd (query_literature w req (snd (query_literature w req p))).

(** What holds of the module state between calls: no load is in progress,
    and every attempt made so far failed, except the last one when a model
    is held. *)
Definition loader_invariant (w : World) (p : Process) : Prop :=
  _EMB_LOADING p = false
  /\ forall k,
       (if is_None (EMB_MODEL p) then (k < load_attempts p)%nat
        else (S k < load_attempts p)%nat) ->
       load_fails w k.

(* ------------------------------------------------------------------ *)
(** ** Vocabulary of the further properties *)

(** [hit.get(k)] on the fields [d] of a hit. *)
Definition field (d : list (pystr * json)) (k : string) : json :=
  match dict_lookup d (py k) with
  | Some v => v
  | None => JNull
  end.

(** The record [r] carries the abstract of the hit [hit], that is
    [hit.get("abstractText") or ""], a string [s], and the snippet cut from
    it: the first 400 characters of [s] followed by ["..."] when [s] has
    more than 400 characters, and [s] itself otherwise. *)
Definition snippet_cut_from (hit : json) (r : Match) : Prop :=
  exists d s,
    hit = JDict d
    /\ py_or (field d "abstractText") (JStr []) = JStr s
    /\ m_abstract r = JStr s
    /\ ((400 < length s)%nat -> m_snippet r = JStr (firstn 400 s ++ py "..."))
    /\ ((length s <= 400)%nat -> m_snippet r = JStr s).

(** A value produced by [hit.get(k) or ""]: a truthy value of the hit, or
    the empty string. *)
Definition field_defaulted (v : json) : Prop :=
  truthy v = true \/ v = JStr [].

(** The part of the module state the loader reads. *)
Definition same_loader_state (p p' : Process) : Prop :=
  EMB_MODEL p = EMB_MODEL p'
  /\ _EMB_LOADING p = _EMB_LOADING p'
  /\ load_attempts p = load_attempts p'.

(** The requests [reqs] served one after the other by one process. *)
Fixpoint serve (w : World) (reqs : list QueryRequest) (p : Process)
  : Process :=
  match reqs with
  | [] => p
  | req :: reqs' => serve w reqs' (snd (query_literature w req p))
  end.

(** The scores do not increase along the list. *)
Definition non_increasing (scores : list pyfloat) : Prop :=
  StronglySorted (fun a b => float_leb b a = true) scores.

Definition UnicodeEncodeError : exn :=
  Exc "UnicodeEncodeError" (py "surrogates not allowed").

(** A world in which the query cannot be URL-encoded. *)
Definition world_bad_query : World :=
  {| environ := fun _ => None;
     quote_plus := fun _ => Raise UnicodeEncodeError;
     client_get := fun _ => Ret (ok_response (body_of (JList sample_hits)));
     load_SentenceTransformer := fun _ => Raise ImportError;
     import_numpy := Ret tt;
     cosine := fun _ e => Ret (hd (FNum 0) e);
     repr_of := fun _ => py "?" |}.

(** Embeddings on; the model returns one row, whatever it is given. *)
Definition world_short_model : World :=
  sample_world (Some "1"%string)
    (Ret (ok_response (body_of (JList sample_hits))))
    (fun _ => Ret {| encode := fun _ => Ret [[FNum 1]] |}).

(** Embeddings on; every text gets the same embedding. *)
Definition world_flat_model : World :=
  sample_world (Some "1"%string)
    (Ret (ok_response (body_of (JList sample_hits))))
    (fun _ =>
       Ret {| encode := fun texts => Ret (map (fun _ => [FNum 1]) texts) |}).

(** [ENABLE_EMBEDDINGS=true]: set, but not to ["1"]. *)
Definition world_flag_true : World :=
  sample_world (Some "true"%string)
    (Ret (ok_response (body_of (JList sample_hits))))
    (fun _ => Ret sample_model).

(** A hit with an abstract and nothing that identifies it. *)
Definition anonymous : list (pystr * json) :=
  [(py "abstractText", JStr (py "abc")); (py "pmcid", JStr [])].

(** A process that holds the sample model. *)
Definition loaded : Process := set_EMB_MODEL (Some sample_model) startup.

(* ------------------------------------------------------------------ *)
(** * Facts *)

(** ** Results and loops *)

Lemma rmap_length {A B} (f : A -> result B) (l : list A) (bs : list B) :
  rmap f l = Ret bs -> length bs = length l.
Proof.
  revert bs; induction l as [|a l IH]; simpl; intros bs H.
  - now inversion H.
  - destruct (f a) as [b|e]; simpl in H; [|discriminate].
    destruct (rmap f l) as [bs'|e]; simpl in H; [|discriminate].
    inversion H; subst; simpl. now rewrite (IH bs').
Qed.

Lemma rmap_Forall2 {A B} (f : A -> result B) (l : list A) (bs : list B) :
  rmap f l = Ret bs <-> Forall2 (fun a b => f a = Ret b) l bs.
Proof.
  revert bs; induction l as [|a l IH]; simpl; intros bs; split; intros H.
  - inversion H; constructor.
  - now inversion H.
  - destruct (f a) as [b|e] eqn:Ea; simpl in H; [|discriminate].
    destruct (rmap f l) as [bs'|e] eqn:El; simpl in H; [|discriminate].
    inversion H; subst. constructor; [exact Ea|now apply IH].
  - inversion H as [|a' b l' bs' Ha Hl]; subst.
    rewrite Ha; simpl. apply IH in Hl. now rewrite Hl.
Qed.

Lemma rmap_total {A B} (f : A -> result B) (l : list A) :
  Forall (fun a => exists b, f a = Ret b) l -> exists bs, rmap f l = Ret bs.
Proof.
  induction 1 as [|a l [b Hb] _ [bs IH]]; simpl.
  - now exists [].
  - rewrite Hb, IH; simpl. now exists (b :: bs).
Qed.

Lemma index_Ret {A} (l : list A) (i : nat) (a : A) :
  index l i = Ret a <-> nth_error l i = Some a.
Proof.
  unfold index. destruct (nth_error l i); split; intros H;
    inversion H; reflexivity.
Qed.

(** ** Sorted lists *)

Lemma StronglySorted_app_intro {A} (R : A -> A -> Prop) (l1 l2 : list A) :
  StronglySorted R l1 -> StronglySorted R l2 ->
  (forall a b, In a l1 -> In b l2 -> R a b) ->
  StronglySorted R (l1 ++ l2).
Proof.
  induction 1 as [|a l1 Hs IH Hall]; simpl; intros H2 Hc; [exact H2|].
  constructor.
  - apply IH; [exact H2|]. intros x y Hx Hy. apply Hc; [now right|exact Hy].
  - apply Forall_app; split; [exact Hall|].
    apply Forall_forall. intros y Hy. apply Hc; [now left|exact Hy].
Qed.

Lemma StronglySorted_rev {A} (R : A -> A -> Prop) (l : list A) :
  StronglySorted R l -> StronglySorted (fun a b => R b a) (rev l).
Proof.
  induction 1 as [|a l Hs IH Hall]; simpl; [constructor|].
  apply StronglySorted_app_intro.
  - exact IH.
  - repeat constructor.
  - intros x y Hx [<-|[]]. apply in_rev in Hx.
    rewrite Forall_forall in Hall. now apply Hall.
Qed.

Lemma StronglySorted_map {A B} (f : A -> B) (R : B -> B -> Prop)
    (l : list A) :
  StronglySorted (fun a b => R (f a) (f b)) l -> StronglySorted R (map f l).
Proof.
  induction 1 as [|a l Hs IH Hall]; simpl; constructor; [exact IH|].
  apply Forall_map. exact Hall.
Qed.

Lemma StronglySorted_weaken {A} (R S : A -> A -> Prop) (l : list A) :
  (forall a b, In a l -> In b l -> R a b -> S a b) ->
  StronglySorted R l -> StronglySorted S l.
Proof.
  intros HRS H; induction H as [|a l Hs IH Hall]; constructor.
  - apply IH. intros x y Hx Hy. apply HRS; now right.
  - rewrite Forall_forall in *. intros y Hy.
    apply HRS; [now left|now right|now apply Hall].
Qed.

Lemma StronglySorted_nth {A} (R : A -> A -> Prop) (l : list A) :
  StronglySorted R l ->
  forall i j a b, (i < j)%nat ->
    nth_error l i = Some a -> nth_error l j = Some b -> R a b.
Proof.
  induction 1 as [|x l Hs IH Hall]; intros i j a b Hij Ha Hb.
  - destruct i; discriminate.
  - destruct j as [|j]; [lia|]. simpl in Hb.
    destruct i as [|i]; simpl in Ha.
    + inversion Ha; subst. rewrite Forall_forall in Hall.
      apply Hall. eapply nth_error_In; eauto.
    + apply (IH i j); [lia|assumption|assumption].
Qed.

Lemma StronglySorted_seq (a n : nat) : StronglySorted lt (seq a n).
Proof.
  revert a; induction n as [|n IH]; intros a; simpl; constructor.
  - apply IH.
  - apply Forall_forall. intros x Hx. apply in_seq in Hx. lia.
Qed.

(** ** The stable sort behind [sorted] *)

Section PySortedFacts.
Variables (K A : Type).
Variable ltb : K -> K -> bool.
(** [<] is a strict weak order on the [comparable] keys (for floats: on
    the keys that are not NaN). *)
Variable comparable : K -> Prop.
Hypothesis ltb_asym : forall a b, ltb a b = true -> ltb b a = false.
Hypothesis ltb_ntrans :
  forall a b c, comparable b ->
    ltb b a = false -> ltb c b = false -> ltb c a = false.
(** The position of the items in the list given to [sorted]. *)
Variable earlier : A -> A -> Prop.

Lemma insert_keyed_perm (x : K * A) (l : list (K * A)) :
  Permutation (insert_keyed ltb x l) (x :: l).
Proof.
  induction l as [|y l IH]; simpl; [reflexivity|].
  destruct (ltb (fst y) (fst x)); [|reflexivity].
  rewrite IH. apply perm_swap.
Qed.

Lemma stable_sort_perm (l : list (K * A)) :
  Permutation (stable_sort ltb l) l.
Proof.
  induction l as [|x l IH]; simpl; [reflexivity|].
  rewrite insert_keyed_perm. now constructor.
Qed.

Lemma sort_keyed_perm (b : bool) (l : list (K * A)) :
  Permutation (sort_keyed ltb b l) l.
Proof.
  destruct b; simpl; [|apply stable_sort_perm].
  rewrite <- Permutation_rev, stable_sort_perm.
  symmetry. apply Permutation_rev.
Qed.

Lemma insert_keyed_sorted (x : K * A) (l : list (K * A)) :
  Forall (fun y => comparable (fst y)) l ->
  Forall (fun y => earlier (snd y) (snd x)) l ->
  StronglySorted (asc_latest_first ltb earlier) l ->
  StronglySorted (asc_latest_first ltb earlier) (insert_keyed ltb x l).
Proof.
  intros Hc Hx Hs; induction Hs as [|y l Hs IH Hall]; simpl.
  - repeat constructor.
  - inversion Hx as [|y' l' Hy Hl]; subst.
    inversion Hc as [|y'' l'' Hcy Hcl]; subst.
    destruct (ltb (fst y) (fst x)) eqn:E.
    + constructor; [now apply IH|].
      apply (Permutation_Forall (Permutation_sym (insert_keyed_perm x l))).
      constructor; [|exact Hall].
      split; [now apply ltb_asym|]. intros F. congruence.
    + constructor; [now constructor|].
      constructor; [split; [exact E|intros _; exact Hy]|].
      rewrite Forall_forall in *. intros z Hz. split.
      * apply ltb_ntrans with (b := fst y); [exact Hcy|exact E|].
        apply (Hall z Hz).
      * intros _. now apply Hl.
Qed.

Lemma stable_sort_sorted (l : list (K * A)) :
  Forall (fun y => comparable (fst y)) l ->
  StronglySorted (fun x y => earlier (snd y) (snd x)) l ->
  StronglySorted (asc_latest_first ltb earlier) (stable_sort ltb l).
Proof.
  intros Hc H; induction H as [|x l Hs IH Hall]; simpl; [constructor|].
  inversion Hc as [|x' l' Hcx Hcl]; subst.
  apply insert_keyed_sorted; [| |now apply IH].
  - exact (Permutation_Forall (Permutation_sym (stable_sort_perm l)) Hcl).
  - exact (Permutation_Forall (Permutation_sym (stable_sort_perm l)) Hall).
Qed.

(** [sorted(..., reverse=True)] lists comparable items by descending key,
    items with equal keys in the order of the input. *)
Lemma sort_keyed_reverse_sorted (l : list (K * A)) :
  Forall (fun y => comparable (fst y)) l ->
  StronglySorted (fun x y => earlier (snd x) (snd y)) l ->
  StronglySorted (desc_stable ltb earlier) (sort_keyed ltb true l).
Proof.
  intros Hc H. simpl.
  apply (StronglySorted_rev (asc_latest_first ltb earlier)).
  apply stable_sort_sorted.
  - now apply Forall_rev.
  - now apply (StronglySorted_rev (fun x y => earlier (snd x) (snd y))).
Qed.
End PySortedFacts.

(** ** The ranking order *)

Lemma StronglySorted_of_map {A B} (f : A -> B) (R : B -> B -> Prop)
    (l : list A) :
  StronglySorted R (map f l) -> StronglySorted (fun a b => R (f a) (f b)) l.
Proof.
  induction l as [|a l IH]; simpl; intros H; [constructor|].
  apply StronglySorted_inv in H. destruct H as [Hs Hall].
  constructor; [now apply IH|].
  rewrite Forall_forall in *. intros b Hb. apply Hall. now apply in_map.
Qed.

(** Among floats that are not NaN, [a < b] is the negation of [b <= a]. *)
Lemma score_ltb_false (a b : pyfloat) :
  is_nan a = false -> is_nan b = false ->
  (score_ltb a b = false <-> float_leb b a = true).
Proof.
  destruct a, b; simpl; intros Ha Hb; try discriminate;
    try (split; intros H; (reflexivity || discriminate)).
  apply negb_false_iff.
Qed.

Lemma float_leb_not_ltb (a b : pyfloat) :
  float_leb b a = true -> score_ltb a b = false.
Proof.
  destruct a, b; simpl; intros H; try discriminate; try reflexivity.
  now rewrite H.
Qed.

Lemma float_eqb_not_ltb (a b : pyfloat) :
  float_eqb a b = true -> score_ltb b a = false.
Proof.
  destruct a, b; simpl; intros H; try discriminate; try reflexivity.
  apply negb_false_iff, Qle_bool_iff. apply Qeq_bool_iff in H.
  rewrite H. apply Qle_refl.
Qed.

Lemma score_ltb_asym (a b : pyfloat) :
  score_ltb a b = true -> score_ltb b a = false.
Proof.
  destruct a as [x| | |], b as [y| | |]; simpl; intros H;
    try discriminate; try reflexivity.
  rewrite negb_true_iff in H. rewrite negb_false_iff.
  apply Qle_bool_iff. destruct (Qlt_le_dec x y) as [L|L].
  - now apply Qlt_le_weak.
  - apply Qle_bool_iff in L. congruence.
Qed.

(** [<=] is transitive through a float that is not a NaN. *)
Lemma score_ltb_ntrans (a b c : pyfloat) :
  is_nan b = false ->
  score_ltb b a = false -> score_ltb c b = false -> score_ltb c a = false.
Proof.
  destruct a as [x| | |], b as [y| | |], c as [z| | |]; simpl;
    intros Hb H1 H2; try discriminate; try reflexivity.
  rewrite negb_false_iff in *. rewrite Qle_bool_iff in *.
  now apply Qle_trans with y.
Qed.

Lemma keyed_scores (scores : list pyfloat) (l : list nat)
    (keyed : list (pyfloat * nat)) :
  rmap (fun i => (k <- index scores i ;; Ret (k, i))%res) l = Ret keyed ->
  map snd keyed = l /\
  Forall (fun kx => nth_error scores (snd kx) = Some (fst kx)) keyed.
Proof.
  revert keyed; induction l as [|i l IH]; simpl; intros keyed H.
  - inversion H; subst. split; constructor.
  - unfold index in H at 1. destruct (nth_error scores i) as [s|] eqn:E;
      simpl in H; [|discriminate].
    destruct (rmap _ l) as [keyed'|e]; simpl in H; [|discriminate].
    inversion H; subst; simpl. destruct (IH keyed' eq_refl) as [-> HF].
    split; [reflexivity|]. constructor; [exact E|exact HF].
Qed.

Lemma ranking_order_succeeds (n : nat) (scores : list pyfloat) :
  (n <= length scores)%nat -> exists order, ranking_order n scores = Ret order.
Proof.
  intros Hn. unfold ranking_order, py_sorted.
  destruct (rmap_total (fun i => (k <- index scores i ;; Ret (k, i))%res)
              (seq 0 n)) as [keyed ->]; simpl; [|eauto].
  apply Forall_forall. intros i Hi. apply in_seq in Hi. unfold index.
  destruct (nth_error scores i) as [s|] eqn:E; simpl; [eauto|].
  apply nth_error_None in E. lia.
Qed.

Lemma ranking_order_fails (n : nat) (scores : list pyfloat) :
  (length scores < n)%nat -> ranking_order n scores = Raise IndexError.
Proof.
  intros Hn. unfold ranking_order, py_sorted.
  destruct (rmap _ (seq 0 n)) as [keyed|e] eqn:E; simpl.
  - apply keyed_scores in E. destruct E as [Hs HF]. exfalso.
    assert (Hin : In (length scores) (map snd keyed))
      by (rewrite Hs; apply in_seq; lia).
    apply in_map_iff in Hin. destruct Hin as [kx [Hk Hin]].
    rewrite Forall_forall in HF. specialize (HF kx Hin). rewrite Hk in HF.
    assert (nth_error scores (length scores) = None)
      by (apply nth_error_None; lia).
    congruence.
  - f_equal. clear Hn. revert e E. generalize 0%nat.
    induction n as [|n IH]; simpl; intros a e E; [discriminate|].
    unfold index in E at 1. destruct (nth_error scores a); simpl in E.
    + destruct (rmap _ (seq (S a) n)) eqn:E'; simpl in E; [discriminate|].
      inversion E; subst. now apply (IH (S a)).
    + now inversion E.
Qed.

(** Whatever the scores, the ranking order is a permutation of the
    positions. *)
Lemma ranking_order_perm (n : nat) (scores : list pyfloat)
    (order : list nat) :
  ranking_order n scores = Ret order -> Permutation order (seq 0 n).
Proof.
  unfold ranking_order, py_sorted. intros H.
  destruct (rmap _ (seq 0 n)) as [keyed|e] eqn:E; simpl in H; [|discriminate].
  inversion H; subst; clear H.
  destruct (keyed_scores _ _ _ E) as [Hsnd _].
  rewrite <- Hsnd. apply Permutation_map.
  apply (sort_keyed_perm pyfloat nat score_ltb true keyed).
Qed.

Lemma ranking_order_spec (n : nat) (scores : list pyfloat)
    (order : list nat) :
  Forall (fun s => is_nan s = false) scores ->
  ranking_order n scores = Ret order ->
  Permutation order (seq 0 n) /\ StronglySorted (ranked_before scores) order.
Proof.
  unfold ranking_order, py_sorted. intros Hnum H.
  destruct (rmap _ (seq 0 n)) as [keyed|e] eqn:E; simpl in H; [|discriminate].
  inversion H; subst; clear H.
  destruct (keyed_scores _ _ _ E) as [Hsnd Hkey].
  pose proof (sort_keyed_perm pyfloat nat score_ltb true keyed) as Hperm.
  assert (Hcmp : Forall (fun kx : pyfloat * nat => is_nan (fst kx) = false)
                   keyed).
  { rewrite Forall_forall in *. intros kx Hin.
    apply Hnum. eapply nth_error_In. now apply Hkey. }
  split.
  - rewrite <- Hsnd. now apply Permutation_map.
  - apply StronglySorted_map.
    assert (Hin : StronglySorted
                    (fun x y : pyfloat * nat => (snd x < snd y)%nat) keyed).
    { apply (StronglySorted_of_map snd lt). rewrite Hsnd.
      apply StronglySorted_seq. }
    apply (sort_keyed_reverse_sorted pyfloat nat score_ltb
             (fun s => is_nan s = false) score_ltb_asym score_ltb_ntrans lt)
      in Hin; [|exact Hcmp].
    revert Hin. apply StronglySorted_weaken.
    intros x y Hx Hy [Hle Htie].
    rewrite Forall_forall in Hkey, Hcmp.
    apply (Permutation_in _ Hperm) in Hx, Hy.
    exists (fst x), (fst y). repeat split.
    + now apply Hkey.
    + now apply Hkey.
    + apply score_ltb_false; auto.
    + intros Heq. apply Htie. now apply float_eqb_not_ltb.
Qed.

Lemma reorder_total (results : list Match) (order : list nat) :
  Permutation order (seq 0 (length results)) ->
  exists out, reorder results order = Ret out.
Proof.
  intros Hp. apply rmap_total. apply Forall_forall. intros i Hi.
  apply (Permutation_in _ Hp) in Hi. apply in_seq in Hi.
  unfold index. destruct (nth_error results i) eqn:E; [eauto|].
  apply nth_error_None in E. lia.
Qed.

Lemma reorder_spec (results : list Match) (order : list nat)
    (out : list Match) :
  reorder results order = Ret out <->
  Forall2 (fun i m => nth_error results i = Some m) order out.
Proof.
  unfold reorder. rewrite rmap_Forall2.
  split; apply Forall2_impl; intros i m; apply index_Ret.
Qed.

(** ** Strings *)

Lemma lstrip_blank (s : pystr) : forallb isspace s = true -> lstrip s = [].
Proof.
  induction s as [|c s IH]; simpl; [reflexivity|].
  intros H. apply andb_true_iff in H. destruct H as [Hc Hs].
  rewrite Hc. now apply IH.
Qed.

Lemma strip_blank (s : pystr) : forallb isspace s = true -> strip s = [].
Proof.
  intros H. unfold strip, rstrip. now rewrite (lstrip_blank s H).
Qed.

Lemma lstrip_nil (s : pystr) : lstrip s = [] -> forallb isspace s = true.
Proof.
  induction s as [|c s IH]; simpl; [reflexivity|].
  destruct (isspace c); [exact IH|discriminate].
Qed.

Lemma lstrip_head (s : pystr) (c : N) (t : pystr) :
  lstrip s = c :: t -> isspace c = false.
Proof.
  induction s as [|x s IH]; simpl; [discriminate|].
  destruct (isspace x) eqn:E; [exact IH|].
  intros H. injection H as <- _. exact E.
Qed.

(** The trimmed text is empty exactly when the text is empty or holds only
    whitespace. *)
Lemma strip_nil_iff (s : pystr) :
  strip s = [] <-> forallb isspace s = true.
Proof.
  split; [|apply strip_blank].
  unfold strip, rstrip. intros H.
  assert (Hr : lstrip (rev (lstrip s)) = []).
  { rewrite <- (rev_involutive (lstrip (rev (lstrip s)))). now rewrite H. }
  apply lstrip_nil in Hr.
  destruct (lstrip s) as [|c t] eqn:E; [now apply lstrip_nil|].
  apply lstrip_head in E.
  rewrite forallb_forall in Hr.
  assert (Hc : isspace c = true)
    by (apply Hr, in_rev; rewrite rev_involutive; now left).
  congruence.
Qed.

(** ** The handler, stage by stage *)

Lemma get_embedding_model_returns (w : World) (p : Process) :
  exists m, fst (get_embedding_model w p) = Ret m.
Proof.
  unfold get_embedding_model.
  destruct (negb _); simpl; eauto.
Qed.

Lemma rank_returns (w : World) (s : pystr) (results : list Match)
    (abstracts : list json) (p : Process) :
  exists out p', rank w s results abstracts p = (Ret out, p').
Proof.
  unfold rank, try_except.
  destruct (rank_body w s results abstracts p) as [[out|e] p']; eauto.
Qed.

Lemma query_literature_blank (w : World) (req : QueryRequest) (p : Process) :
  strip (symptoms req) = [] ->
  query_literature w req p = (HTTPException 400 (py "No symptoms provided"), p).
Proof.
  intros H. unfold query_literature. now rewrite H.
Qed.

Lemma query_literature_search_failed (w : World) (req : QueryRequest)
    (p p1 : Process) (e : exn) :
  strip (symptoms req) <> [] ->
  fetch_europepmc w (strip (symptoms req)) (top_k req) p = (Raise e, p1) ->
  query_literature w req p = (HTTPException 502 (exc_msg e), p1).
Proof.
  intros Hs Hf. unfold query_literature.
  destruct (strip (symptoms req)) as [|c s]; [contradiction|].
  now rewrite Hf.
Qed.

Lemma query_literature_parse_failed (w : World) (req : QueryRequest)
    (p p1 : Process) (data : json) (e : exn) :
  strip (symptoms req) <> [] ->
  fetch_europepmc w (strip (symptoms req)) (top_k req) p = (Ret data, p1) ->
  parse_hits w data = Raise e ->
  query_literature w req p = (Unhandled e, p1).
Proof.
  intros Hs Hf Hp. unfold query_literature.
  destruct (strip (symptoms req)) as [|c s]; [contradiction|].
  now rewrite Hf, Hp.
Qed.

Lemma query_literature_ranked (w : World) (req : QueryRequest)
    (p p1 p2 : Process) (data : json) (parsed : list (Match * json))
    (out : list Match) :
  strip (symptoms req) <> [] ->
  fetch_europepmc w (strip (symptoms req)) (top_k req) p = (Ret data, p1) ->
  parse_hits w data = Ret parsed ->
  rank w (strip (symptoms req)) (map fst parsed) (map snd parsed) p1
    = (Ret out, p2) ->
  query_literature w req p = (Return (build_response w out), p2).
Proof.
  intros Hs Hf Hp Hr. unfold query_literature.
  destruct (strip (symptoms req)) as [|c s]; [contradiction|].
  now rewrite Hf, Hp, Hr.
Qed.

(** Whatever the handler returns was built from the outcome of [rank] on
    the parsed hits. *)
Lemma query_literature_Return (w : World) (req : QueryRequest)
    (p p2 : Process) (r : Payload) :
  query_literature w req p = (Return r, p2) ->
  strip (symptoms req) <> [] /\
  exists data p1 parsed out,
    fetch_europepmc w (strip (symptoms req)) (top_k req) p = (Ret data, p1) /\
    parse_hits w data = Ret parsed /\
    rank w (strip (symptoms req)) (map fst parsed) (map snd parsed) p1
      = (Ret out, p2) /\
    r = build_response w out.
Proof.
  unfold query_literature. intros H.
  destruct (strip (symptoms req)) as [|c s] eqn:Es; [discriminate|].
  split; [discriminate|].
  destruct (fetch_europepmc w (c :: s) (top_k req) p) as [[data|e] p1] eqn:Ef;
    [|discriminate].
  destruct (parse_hits w data) as [parsed|e] eqn:Ep; [|discriminate].
  destruct (rank w (c :: s) (map fst parsed) (map snd parsed) p1)
    as [[out|e] p2'] eqn:Er; [|discriminate].
  inversion H; subst. exists data, p1, parsed, out. auto.
Qed.

(** The search step: what [fetch_europepmc] does, cause by cause. *)
Lemma fetch_europepmc_cases (w : World) (query : pystr) (n : Z) (p : Process) :
  match quote_plus w query with
  | Raise e => fetch_europepmc w query n p = (Raise e, p)
  | Ret q =>
      let u := EUROPE_PMC_SEARCH q n in
      match client_get w u with
      | Raise e => fetch_europepmc w query n p = (Raise e, record_get u p)
      | Ret r =>
          if ((200 <=? status_code r) && (status_code r <=? 299))%Z
          then fetch_europepmc w query n p = (json_body r, record_get u p)
          else fetch_europepmc w query n p
               = (Raise (Exc "HTTPStatusError" (status_error r)),
                  record_get u p)
      end
  end.
Proof.
  unfold fetch_europepmc, mbind, lift, http_get, raise_for_status.
  destruct (quote_plus w query) as [q|e]; [|reflexivity]. simpl.
  destruct (client_get w (EUROPE_PMC_SEARCH q n)) as [r|e]; [|reflexivity].
  destruct ((200 <=? status_code r) && (status_code r <=? 299))%Z;
    reflexivity.
Qed.

(* ------------------------------------------------------------------ *)
(** * The properties of the specification *)

(** C3. A request whose [symptoms] is empty or holds only whitespace is
    answered with [HTTPException(400, "No symptoms provided")], and the
    process is left as it was: in particular nothing is added to the list of
    outbound search calls. *)
Theorem blank_symptoms_rejected (w : World) (req : QueryRequest)
    (p : Process) :
  forallb isspace (symptoms req) = true ->
  query_literature w req p
    = (HTTPException 400 (py "No symptoms provided"), p)
  /\ http_status (fst (query_literature w req p)) = 400%Z
  /\ outbound (snd (query_literature w req p)) = outbound p.
Proof.
  intros H. rewrite (query_literature_blank w req p (strip_blank _ H)).
  repeat split.
Qed.

Lemma blank_symptoms_rejected_witness :
  forallb isspace (py "   ") = true
  /\ query_literature world_ranked (QueryRequest_of (py "   ") None) startup
     = (HTTPException 400 (py "No symptoms provided"), startup).
Proof.
  split; [reflexivity|].
  apply (blank_symptoms_rejected world_ranked
           (QueryRequest_of (py "   ") None) startup).
  reflexivity.
Defined.

(** C2. When the outbound search call fails, the handler raises
    [HTTPException(502, str(e))] for the exception [e] of the failure and
    nothing else escapes the search step.  This holds for whatever
    [fetch_europepmc] raises, and in particular when the request times out
    or cannot connect ([client.get] raises [e]) and when the answer has a
    status outside 200..299 ([raise_for_status] raises). *)
Theorem search_failure_is_502 (w : World) (req : QueryRequest) (p : Process) :
  strip (symptoms req) <> [] ->
  (forall e p1,
      fetch_europepmc w (strip (symptoms req)) (top_k req) p = (Raise e, p1) ->
      query_literature w req p = (HTTPException 502 (exc_msg e), p1))
  /\
  (forall q, quote_plus w (strip (symptoms req)) = Ret q ->
     let u := EUROPE_PMC_SEARCH q (top_k req) in
     (forall e, client_get w u = Raise e ->
        query_literature w req p
          = (HTTPException 502 (exc_msg e), record_get u p))
     /\
     (forall r, client_get w u = Ret r ->
        (status_code r < 200 \/ 299 < status_code r)%Z ->
        query_literature w req p
          = (HTTPException 502 (status_error r), record_get u p))).
Proof.
  intros Hs. split.
  - intros e p1 Hf. now apply query_literature_search_failed.
  - intros q Hq u.
    pose proof (fetch_europepmc_cases w (strip (symptoms req)) (top_k req) p)
      as Hc.
    rewrite Hq in Hc. fold u in Hc. simpl in Hc. split.
    + intros e He. rewrite He in Hc.
      now apply query_literature_search_failed.
    + intros r Hr Hcode. rewrite Hr in Hc.
      replace ((200 <=? status_code r) && (status_code r <=? 299))%Z
        with false in Hc
        by (symmetry; apply andb_false_iff;
            rewrite !Z.leb_gt; destruct Hcode; [left|right]; lia).
      now rewrite (query_literature_search_failed w req p _ _ Hs Hc).
Qed.

Lemma search_failure_is_502_witness :
  strip (symptoms sample_request) <> []
  /\ query_literature world_down sample_request startup
     = (HTTPException 502 (py "timed out"),
        record_get (EUROPE_PMC_SEARCH (py "fever+cough") 3) startup)
  /\ query_literature world_503 sample_request startup
     = (HTTPException 502 (py "Server error '503 Service Unavailable'"),
        record_get (EUROPE_PMC_SEARCH (py "fever+cough") 3) startup).
Proof.
  assert (Hs : strip (symptoms sample_request) <> []) by discriminate.
  split; [exact Hs|]. split.
  - apply (proj1 (proj2 (search_failure_is_502 world_down sample_request
                           startup Hs)
                    (py "fever+cough") eq_refl) ConnectTimeout).
    reflexivity.
  - apply (proj2 (proj2 (search_failure_is_502 world_503 sample_request
                           startup Hs)
                    (py "fever+cough") eq_refl)
             {| status_code := 503;
                status_error := py "Server error '503 Service Unavailable'";
                json_body := Ret JNull |}).
    + reflexivity.
    + right. reflexivity.
Defined.

Lemma parse_hits_Forall2 (w : World) (data : json) (hits : list json)
    (parsed : list (Match * json)) :
  hits_of data = Ret hits ->
  parse_hits w data = Ret parsed ->
  Forall2 (fun h ma => parse_hit w h = Ret ma) hits parsed.
Proof.
  unfold parse_hits. intros -> H. simpl in H. now apply rmap_Forall2.
Qed.

Lemma rank_unavailable (w : World) (s : pystr) (results : list Match)
    (abstracts : list json) (p : Process) :
  fst (get_embedding_model w p) = Ret None ->
  rank w s results abstracts p = (Ret results, snd (get_embedding_model w p)).
Proof.
  unfold rank, try_except, rank_body, mbind.
  destruct (get_embedding_model w p) as [r p']; simpl. now intros ->.
Qed.

Lemma rank_failed (w : World) (s : pystr) (results : list Match)
    (abstracts : list json) (p p' : Process) (e : exn) :
  rank_body w s results abstracts p = (Raise e, p') ->
  rank w s results abstracts p = (Ret results, record_log (LogException e) p').
Proof.
  unfold rank, try_except. now intros ->.
Qed.

(** C1. When the ranking step is unavailable ([get_embedding_model] returns
    [None]: embeddings disabled or no model loaded) or raises an exception,
    the handler still returns its payload, and the matches are the records
    of the hits in the order in which the search returned them. *)
Theorem ranking_unavailable_keeps_order (w : World) (req : QueryRequest)
    (p p1 : Process) (data : json) (hits : list json)
    (parsed : list (Match * json)) :
  strip (symptoms req) <> [] ->
  fetch_europepmc w (strip (symptoms req)) (top_k req) p = (Ret data, p1) ->
  hits_of data = Ret hits ->
  parse_hits w data = Ret parsed ->
  (fst (get_embedding_model w p1) = Ret None
   \/ exists e p2,
        rank_body w (strip (symptoms req)) (map fst parsed) (map snd parsed) p1
          = (Raise e, p2)) ->
  exists out p3,
    query_literature w req p = (Return out, p3)
    /\ matches out = map fst parsed
    /\ Forall2 (fun h r => exists a, parse_hit w h = Ret (r, a))
         hits (matches out).
Proof.
  intros Hs Hf Hh Hp Hrank.
  assert (HF : Forall2 (fun h r => exists a, parse_hit w h = Ret (r, a))
                 hits (map fst parsed)).
  { pose proof (parse_hits_Forall2 w data hits parsed Hh Hp) as H.
    clear -H. induction H as [|h [r a] hs ps Hh Hrest IH]; simpl;
      constructor; eauto. }
  destruct Hrank as [Hnone|[e [p2 Hraise]]].
  - exists (build_response w (map fst parsed)),
      (snd (get_embedding_model w p1)).
    split; [|split; [reflexivity|exact HF]].
    apply (query_literature_ranked w req p p1 _ data parsed _ Hs Hf Hp).
    now apply rank_unavailable.
  - exists (build_response w (map fst parsed)),
      (record_log (LogException e) p2).
    split; [|split; [reflexivity|exact HF]].
    apply (query_literature_ranked w req p p1 _ data parsed _ Hs Hf Hp).
    now apply rank_failed.
Qed.

Lemma ranking_unavailable_keeps_order_witness :
  (exists out p3,
      query_literature world_unranked sample_request startup = (Return out, p3)
      /\ map m_title (matches out)
         = [JStr (py "Fever in adults"); JNull; JStr (py "Cough")])
  /\
  (exists out p3,
      query_literature world_bad_model sample_request startup
        = (Return out, p3)
      /\ map m_title (matches out)
         = [JStr (py "Fever in adults"); JNull; JStr (py "Cough")]).
Proof.
  assert (Hs : strip (symptoms sample_request) <> []) by discriminate.
  split.
  - edestruct (ranking_unavailable_keeps_order world_unranked sample_request
                 startup) as [out [p3 [Hq [Hm _]]]].
    + exact Hs.
    + vm_compute. reflexivity.
    + vm_compute. reflexivity.
    + vm_compute. reflexivity.
    + left. reflexivity.
    + exists out, p3. split; [exact Hq|]. rewrite Hm. reflexivity.
  - edestruct (ranking_unavailable_keeps_order world_bad_model sample_request
                 startup) as [out [p3 [Hq [Hm _]]]].
    + exact Hs.
    + vm_compute. reflexivity.
    + vm_compute. reflexivity.
    + vm_compute. reflexivity.
    + right. eexists. eexists. vm_compute. reflexivity.
    + exists out, p3. split; [exact Hq|]. rewrite Hm. reflexivity.
Defined.

Lemma rank_succeeded (w : World) (s : pystr) (parsed : list (Match * json))
    (p p2 : Process) (m : SentenceTransformer) (scores : list pyfloat)
    (order : list nat) (out : list Match) :
  parsed <> [] ->
  get_embedding_model w p = (Ret (Some m), p2) ->
  score_documents w m s (map snd parsed) = Ret scores ->
  ranking_order (length (map fst parsed)) scores = Ret order ->
  reorder (map fst parsed) order = Ret out ->
  rank w s (map fst parsed) (map snd parsed) p = (Ret out, p2).
Proof.
  intros Hne Hm Hsc Ho Hr.
  unfold rank, try_except, rank_body, mbind. rewrite Hm.
  remember (map snd parsed) as abstracts eqn:Ea.
  destruct abstracts as [|a abstracts].
  - destruct parsed; [contradiction|discriminate].
  - unfold lift. rewrite Hsc. unfold rbind at 1.
    rewrite Ho. unfold rbind. now rewrite Hr.
Qed.

(** C4, as the code has it.  When ranking is enabled and succeeds (a model
    is available, there is at least one hit, and scoring and sorting raise
    nothing) and no score is a NaN, the handler returns the hits reordered
    by [order], a permutation of their positions, such that whenever
    position [a] precedes position [b] in the output the score of the hit
    at [a] is at least the score of the hit at [b], and if the two scores
    are equal the hit at [a] also preceded the hit at [b] in the search
    results. *)
Theorem ranked_matches_descending (w : World) (req : QueryRequest)
    (p p1 p2 : Process) (data : json) (parsed : list (Match * json))
    (m : SentenceTransformer) (scores : list pyfloat) (order : list nat) :
  strip (symptoms req) <> [] ->
  fetch_europepmc w (strip (symptoms req)) (top_k req) p = (Ret data, p1) ->
  parse_hits w data = Ret parsed ->
  parsed <> [] ->
  get_embedding_model w p1 = (Ret (Some m), p2) ->
  score_documents w m (strip (symptoms req)) (map snd parsed) = Ret scores ->
  Forall (fun s => is_nan s = false) scores ->
  ranking_order (length (map fst parsed)) scores = Ret order ->
  exists out,
    query_literature w req p = (Return out, p2)
    /\ Permutation order (seq 0 (length (map fst parsed)))
    /\ Forall2 (fun i r => nth_error (map fst parsed) i = Some r)
         order (matches out)
    /\ forall a b i j, (a < b)%nat ->
         nth_error order a = Some i -> nth_error order b = Some j ->
         exists si sj,
           nth_error scores i = Some si /\ nth_error scores j = Some sj /\
           float_leb sj si = true /\ (float_eqb si sj = true -> (i < j)%nat).
Proof.
  intros Hs Hf Hp Hne Hm Hsc Hnum Ho.
  destruct (ranking_order_spec _ _ _ Hnum Ho) as [Hperm Hsorted].
  destruct (reorder_total (map fst parsed) order Hperm) as [out Hout].
  exists (build_response w out). repeat split.
  - apply (query_literature_ranked w req p p1 p2 data parsed out Hs Hf Hp).
    now apply rank_succeeded with m scores order.
  - exact Hperm.
  - now apply reorder_spec.
  - intros a b i j Hab Ha Hb.
    exact (StronglySorted_nth _ _ Hsorted a b i j Hab Ha Hb).
Qed.

Lemma ranked_matches_descending_witness :
  exists out p2,
    query_literature world_ranked sample_request startup = (Return out, p2)
    /\ map m_title (matches out)
       = [JNull; JStr (py "Fever in adults"); JStr (py "Cough")].
Proof.
  edestruct (ranked_matches_descending world_ranked sample_request startup)
    with (scores := [FNum (3 # 1); FNum (5 # 1); FNum (3 # 1)])
         (order := [1; 0; 2]%nat)
    as [out [Hq [_ [Hm _]]]].
  - discriminate.
  - vm_compute. reflexivity.
  - vm_compute. reflexivity.
  - discriminate.
  - vm_compute. reflexivity.
  - vm_compute. reflexivity.
  - repeat constructor.
  - vm_compute. reflexivity.
  - eexists out, _. split; [exact Hq|].
    destruct out as [su ma ci]. simpl in Hm |- *.
    apply reorder_spec in Hm. vm_compute in Hm.
    injection Hm as <-. reflexivity.
Defined.

(** C4 as stated fails: when the second of three hits gets a NaN score and
    the others 1 and 2, ranking succeeds (nothing is raised or logged) and
    the matches stay in search order, so the hit with score 1 precedes the
    hit with score 2. *)
Lemma nan_score_breaks_descending :
  exists out p2,
    query_literature world_nan sample_request startup = (Return out, p2)
    /\ log p2 = []
    /\ score_documents world_nan nan_model (strip (symptoms sample_request))
         [JStr (py "a"); JStr (py "abcde"); JStr (py "ab")]
       = Ret [FNum 1; FNaN; FNum 2]
    /\ ranking_order 3 [FNum 1; FNaN; FNum 2] = Ret [0; 1; 2]%nat
    /\ map m_title (matches out)
       = [JStr (py "one"); JStr (py "two"); JStr (py "three")]
    /\ float_leb (FNum 2) (FNum 1) = false.
Proof.
  eexists. eexists.
  split; [vm_compute; reflexivity|]. repeat split.
Qed.

(** ** One hit *)

Lemma rbind_Ret {A B} (r : result A) (k : A -> result B) (b : B) :
  rbind r k = Ret b -> exists a, r = Ret a /\ k a = Ret b.
Proof. destruct r as [a|e]; simpl; [eauto|discriminate]. Qed.

Tactic Notation "inv_bind" hyp(H) "as" ident(x) ident(E) :=
  apply rbind_Ret in H; destruct H as [x [E H]].

(** What a successful run of the loop body computed. *)
Lemma parse_hit_Ret (w : World) (hit : json) (r : Match) (a : json) :
  parse_hit w hit = Ret (r, a) ->
  exists d s,
    hit = JDict d
    /\ py_or (match dict_lookup d (py "abstractText") with
              | Some v => v
              | None => JNull
              end) (JStr []) = JStr s
    /\ m_title r = match dict_lookup d (py "title") with
                   | Some v => v
                   | None => JNull
                   end
    /\ m_abstract r = JStr s
    /\ m_snippet r
       = JStr (firstn 400 s ++ (if (400 <? length s)%nat then py "..." else []))
    /\ m_source r = py "EuropePMC".
Proof.
  unfold parse_hit. intros H.
  destruct hit as [| | | | |l|d]; try discriminate.
  exists d.
  inv_bind H as title Et. inv_bind H as ab Ea.
  inv_bind H as j Ej. inv_bind H as y Ey. inv_bind H as pm Epm.
  inv_bind H as pmcid Eid. inv_bind H as src Esrc.
  inv_bind H as hd400 Eh. inv_bind H as n En. inv_bind H as snip Es.
  simpl in Et, Ea.
  assert (Ht : title = match dict_lookup d (py "title") with
                       | Some v => v
                       | None => JNull
                       end)
    by (destruct (dict_lookup d (py "title")); now inversion Et).
  assert (Hab : ab = match dict_lookup d (py "abstractText") with
                     | Some v => v
                     | None => JNull
                     end)
    by (destruct (dict_lookup d (py "abstractText")); now inversion Ea).
  rewrite <- Hab.
  revert Eh En Es H.
  destruct (py_or ab (JStr [])) as [| | | |s|l|d'] eqn:Eor;
    intros Eh En Es H; try discriminate.
  - exists s. simpl in Eh, En, Es.
    injection Eh as <-. injection En as <-.
    simpl in Es. injection Es as <-.
    injection H as <- <-. simpl. repeat split. exact Ht.
  - simpl in Eh. injection Eh as <-. simpl in Es. discriminate.
Qed.

Lemma firstn_short {A} (n : nat) (l : list A) :
  (length l <= n)%nat -> firstn n l = l.
Proof. intros H. now apply firstn_all2. Qed.

Lemma parse_hit_total (w : World) (hit : json) :
  hit_parses hit = true <-> exists ra, parse_hit w hit = Ret ra.
Proof.
  split.
  - unfold hit_parses, parse_hit. destruct hit as [| | | | |l|d];
      try discriminate.
    intros H. simpl.
    destruct (dict_lookup d (py "title")) as [t|]; simpl;
    destruct (dict_lookup d (py "abstractText")) as [ab|]; simpl;
    destruct (dict_lookup d (py "journalTitle")) as [j|]; simpl;
    destruct (dict_lookup d (py "pubYear")) as [y|]; simpl;
    destruct (dict_lookup d (py "pmcid")) as [pm|]; simpl;
    try destruct (truthy pm); simpl;
    destruct (dict_lookup d (py "id")) as [i|]; simpl;
    destruct (dict_lookup d (py "source")) as [src|]; simpl;
    try (destruct (py_or ab (JStr [])); try discriminate; simpl);
    eauto.
  - intros [[r a] H]. apply parse_hit_Ret in H.
    destruct H as [d [s [-> [Hor _]]]]. simpl.
    destruct (dict_lookup d (py "abstractText")) as [v|]; [|reflexivity].
    now rewrite Hor.
Qed.

(** ** The ranking step as a whole *)

Lemma get_embedding_model_outbound (w : World) (p : Process) :
  outbound (snd (get_embedding_model w p)) = outbound p.
Proof.
  unfold get_embedding_model.
  destruct (negb _); [reflexivity|].
  destruct (is_None (EMB_MODEL p) && negb (_EMB_LOADING p)); [|reflexivity].
  now destruct (load_SentenceTransformer w (load_attempts p)).
Qed.

(** [rank] returns the results as they were, or reordered along a ranking
    order; it makes no outbound call. *)
Lemma rank_cases (w : World) (s : pystr) (results : list Match)
    (abstracts : list json) (p p' : Process) (out : list Match) :
  rank w s results abstracts p = (Ret out, p') ->
  outbound p' = outbound p
  /\ (out = results
      \/ exists scores order,
           ranking_order (length results) scores = Ret order
           /\ reorder results order = Ret out).
Proof.
  unfold rank, try_except, rank_body, mbind.
  pose proof (get_embedding_model_outbound w p) as Ho.
  destruct (get_embedding_model w p) as [[model|e] p1]; simpl in Ho.
  - destruct model as [m|]; [destruct abstracts as [|a abstracts]|];
      unfold mret, lift.
    + intros H; inversion H; subst. auto.
    + destruct (score_documents w m s (a :: abstracts)) as [scores|e];
        simpl.
      * destruct (ranking_order (length results) scores) as [order|e] eqn:Eo;
          simpl.
        -- destruct (reorder results order) as [out'|e] eqn:Er.
           ++ intros H; inversion H; subst. split; [exact Ho|].
              right. now exists scores, order.
           ++ intros H; inversion H; subst. auto.
        -- intros H; inversion H; subst. auto.
      * intros H; inversion H; subst. auto.
    + intros H; inversion H; subst. auto.
  - intros H; inversion H; subst. auto.
Qed.

Lemma Forall2_length_eq {A B} (R : A -> B -> Prop) (l : list A) (m : list B) :
  Forall2 R l m -> length l = length m.
Proof. induction 1; simpl; congruence. Qed.

Lemma rank_length (w : World) (s : pystr) (results : list Match)
    (abstracts : list json) (p p' : Process) (out : list Match) :
  rank w s results abstracts p = (Ret out, p') ->
  length out = length results.
Proof.
  intros H. apply rank_cases in H.
  destruct H as [_ [->|[scores [order [Ho Hr]]]]]; [reflexivity|].
  apply ranking_order_perm in Ho.
  apply reorder_spec, Forall2_length_eq in Hr. rewrite <- Hr.
  apply Permutation_length in Ho. now rewrite Ho, length_seq.
Qed.

Lemma rank_incl (w : World) (s : pystr) (results : list Match)
    (abstracts : list json) (p p' : Process) (out : list Match) :
  rank w s results abstracts p = (Ret out, p') -> incl out results.
Proof.
  intros H. apply rank_cases in H.
  destruct H as [_ [->|[scores [order [_ Hr]]]]]; [apply incl_refl|].
  apply reorder_spec in Hr. clear -Hr.
  induction Hr as [|i r order out Hi _ IH]; intros x Hx; [destruct Hx|].
  destruct Hx as [<-|Hx]; [|now apply IH].
  eapply nth_error_In; eauto.
Qed.

Example snippet_of_long_abstract :
  exists r a,
    parse_hit world_ranked long_hit = Ret (r, a)
    /\ m_snippet r = JStr (repeat 97%N 400 ++ py "...").
Proof. eexists. eexists. split; vm_compute; reflexivity. Qed.

Lemma citation_citation_of (w : World) (r : Match) :
  citation_of w r (citation w r).
Proof. reflexivity. Qed.

Lemma Forall2_map_right {A B} (R : A -> B -> Prop) (f : A -> B) (l : list A) :
  (forall a, R a (f a)) -> Forall2 R l (map f l).
Proof. intros H. induction l; simpl; constructor; auto. Qed.

(** C8. For a request with symptoms whose search succeeded with the hits
    [hits]: if every hit is an object whose abstract is missing, falsy or a
    string, the handler returns a payload; and whenever it returns a payload,
    the payload has as many matches as there are hits, one citation per
    match in the order of the matches, each of the form
    ["{title} — {journal} ({year}) — {url}"], and its summary is the
    placeholder text with the number of matches in it. *)
Theorem response_shape (w : World) (req : QueryRequest) (p p1 : Process)
    (data : json) (hits : list json) :
  strip (symptoms req) <> [] ->
  fetch_europepmc w (strip (symptoms req)) (top_k req) p = (Ret data, p1) ->
  hits_of data = Ret hits ->
  (forallb hit_parses hits = true ->
   exists out p2, query_literature w req p = (Return out, p2))
  /\
  (forall out p2,
      query_literature w req p = (Return out, p2) ->
      length (matches out) = length hits
      /\ Forall2 (citation_of w) (matches out) (citations out)
      /\ summary out
         = py "SUMMARY (placeholder): Found "
           ++ str_of_int (Z.of_nat (length (matches out)))
           ++ py " articles. Replace this with LLM-generated educational summary that cites sources.").
Proof.
  intros Hs Hf Hh. split.
  - intros Hwf.
    destruct (rmap_total (parse_hit w) hits) as [parsed Hp].
    { rewrite forallb_forall in Hwf. apply Forall_forall. intros h Hin.
      destruct (proj1 (parse_hit_total w h) (Hwf h Hin)) as [ra Hra].
      now exists ra. }
    assert (Hp' : parse_hits w data = Ret parsed)
      by (unfold parse_hits; rewrite Hh; exact Hp).
    destruct (rank_returns w (strip (symptoms req)) (map fst parsed)
                (map snd parsed) p1) as [out [p2 Hr]].
    exists (build_response w out), p2.
    now apply query_literature_ranked with p1 data parsed.
  - intros out p2 H. apply query_literature_Return in H.
    destruct H as [_ [data' [p1' [parsed [rs [Hf' [Hp [Hr ->]]]]]]]].
    rewrite Hf in Hf'. injection Hf' as <- <-. simpl. repeat split.
    + rewrite (rank_length _ _ _ _ _ _ _ Hr), length_map.
      unfold parse_hits in Hp. rewrite Hh in Hp. simpl in Hp.
      now apply rmap_length in Hp.
    + apply Forall2_map_right. apply citation_citation_of.
Qed.

Lemma response_shape_witness :
  exists out p2,
    query_literature world_ranked sample_request startup = (Return out, p2)
    /\ length (matches out) = 3%nat
    /\ length (citations out) = 3%nat
    /\ summary out
       = py "SUMMARY (placeholder): Found 3 articles. Replace this with LLM-generated educational summary that cites sources.".
Proof.
  destruct (response_shape world_ranked sample_request startup
              (record_get (EUROPE_PMC_SEARCH (py "fever+cough") 3) startup)
              (body_of (JList sample_hits)) sample_hits)
    as [Hex Hshape].
  - discriminate.
  - reflexivity.
  - reflexivity.
  - destruct (Hex eq_refl) as [out [p2 Hq]].
    destruct (Hshape out p2 Hq) as [Hlen [Hcit Hsum]].
    exists out, p2. split; [exact Hq|]. split; [exact Hlen|].
    split.
    + apply Forall2_length_eq in Hcit. now rewrite <- Hcit.
    + rewrite Hsum, Hlen. reflexivity.
Defined.



(** ** The result list *)

Lemma hits_of_absent (data : json) :
  result_list_absent data -> hits_of data = Ret [].
Proof.
  intros [d [-> [Hn|[d' [Hs Hn]]]]]; unfold hits_of; simpl.
  - now rewrite Hn.
  - rewrite Hs. simpl. now rewrite Hn.
Qed.

(** C5, as the code has it.  When the decoded body is an object without
    ["resultList"], or with a ["resultList"] object without ["result"], the
    handler returns a payload with no matches and no citations. *)
Theorem absent_result_list_gives_no_matches (w : World) (req : QueryRequest)
    (p p1 : Process) (data : json) :
  strip (symptoms req) <> [] ->
  fetch_europepmc w (strip (symptoms req)) (top_k req) p = (Ret data, p1) ->
  result_list_absent data ->
  exists out p2,
    query_literature w req p = (Return out, p2)
    /\ matches out = [] /\ citations out = [].
Proof.
  intros Hs Hf Ha.
  assert (Hp : parse_hits w data = Ret [])
    by (unfold parse_hits; now rewrite (hits_of_absent data Ha)).
  destruct (rank_returns w (strip (symptoms req)) [] [] p1) as [out [p2 Hr]].
  pose proof (rank_length _ _ _ _ _ _ _ Hr) as Hlen.
  destruct out; [|discriminate].
  exists (build_response w []), p2. split; [|split; reflexivity].
  now apply query_literature_ranked with p1 data (@nil (Match * json)).
Qed.

Lemma absent_result_list_gives_no_matches_witness :
  exists out p2,
    query_literature (world_body (JDict [])) sample_request startup
      = (Return out, p2)
    /\ matches out = [] /\ citations out = [].
Proof.
  apply (absent_result_list_gives_no_matches (world_body (JDict []))
           sample_request startup
           (record_get (EUROPE_PMC_SEARCH (py "fever+cough") 3) startup)
           (JDict [])).
  - discriminate.
  - reflexivity.
  - exists []. split; [reflexivity|]. left. reflexivity.
Defined.

(** C5 as stated fails: a body whose ["resultList"] is [null] has no result
    list, and the handler raises an [AttributeError] instead of returning a
    payload with no matches. *)
Lemma null_result_list_raises :
  hits_of (JDict [(py "resultList", JNull)]) = Raise AttributeError
  /\ fst (query_literature (world_body (JDict [(py "resultList", JNull)]))
            sample_request startup)
     = Unhandled AttributeError.
Proof. split; reflexivity. Qed.

(** ** The result limit *)

Lemma rank_outbound (w : World) (s : pystr) (results : list Match)
    (abstracts : list json) (p : Process) :
  outbound (snd (rank w s results abstracts p)) = outbound p.
Proof.
  destruct (rank_returns w s results abstracts p) as [out [p' H]].
  rewrite H. simpl. now destruct (rank_cases _ _ _ _ _ _ _ H).
Qed.

Lemma fetch_europepmc_outbound (w : World) (query q : pystr) (n : Z)
    (p : Process) :
  quote_plus w query = Ret q ->
  snd (fetch_europepmc w query n p) = record_get (EUROPE_PMC_SEARCH q n) p.
Proof.
  intros Hq. pose proof (fetch_europepmc_cases w query n p) as H.
  rewrite Hq in H. simpl in H.
  destruct (client_get w (EUROPE_PMC_SEARCH q n)) as [r|e].
  - destruct ((200 <=? status_code r) && (status_code r <=? 299))%Z;
      now rewrite H.
  - now rewrite H.
Qed.

(** C9, as the code has it.  [top_k] is any integer: it is 5 when the
    request gives none and the given value otherwise, and for a request with
    symptoms the handler makes exactly one outbound call, to the search URL
    whose [pageSize] is that value written in decimal, whatever its size or
    sign. *)
Theorem top_k_passed_through (w : World) (s : pystr) (k : Z) :
  top_k (QueryRequest_of s None) = 5%Z
  /\ top_k (QueryRequest_of s (Some k)) = k
  /\ forall req p q,
       strip (symptoms req) <> [] ->
       quote_plus w (strip (symptoms req)) = Ret q ->
       outbound (snd (query_literature w req p))
       = (py "https://www.ebi.ac.uk/europepmc/webservices/rest/search?query="
          ++ q ++ py "&format=json&pageSize=" ++ str_of_int (top_k req))
         :: outbound p.
Proof.
  split; [reflexivity|]. split; [reflexivity|].
  intros req p q Hs Hq.
  pose proof (fetch_europepmc_outbound w _ q (top_k req) p Hq) as Hfo.
  unfold query_literature.
  destruct (strip (symptoms req)) as [|c s']; [contradiction|].
  destruct (fetch_europepmc w (c :: s') (top_k req) p) as [[data|e] p1];
    simpl in Hfo; subst p1; [|reflexivity].
  destruct (parse_hits w data) as [parsed|e]; [|reflexivity].
  pose proof (rank_outbound w (c :: s') (map fst parsed) (map snd parsed)
                (record_get (EUROPE_PMC_SEARCH q (top_k req)) p)) as Hr.
  destruct (rank w (c :: s') (map fst parsed) (map snd parsed) _)
    as [[out|e] p2]; exact Hr.
Qed.

Lemma top_k_passed_through_witness :
  outbound (snd (query_literature world_ranked
                   (QueryRequest_of (py "fever") (Some 1000000%Z)) startup))
  = [py "https://www.ebi.ac.uk/europepmc/webservices/rest/search?query=fever&format=json&pageSize=1000000"].
Proof.
  apply (proj2 (proj2 (top_k_passed_through world_ranked [] 0))
           (QueryRequest_of (py "fever") (Some 1000000%Z)) startup
           (py "fever")).
  - discriminate.
  - reflexivity.
Defined.

(** C9 as stated fails: a request whose [top_k] is 0 is served like any
    other, with [pageSize=0] in the outbound call. *)
Lemma zero_top_k_accepted :
  let req := QueryRequest_of (py "fever") (Some 0%Z) in
  ~ (0 < top_k req)%Z
  /\ exists out p',
       query_literature world_unranked req startup = (Return out, p')
       /\ outbound p'
          = [py "https://www.ebi.ac.uk/europepmc/webservices/rest/search?query=fever&format=json&pageSize=0"].
Proof.
  split; [intros H; discriminate H|].
  eexists. eexists. split; vm_compute; reflexivity.
Qed.

(** ** The loader *)

Lemma get_embedding_model_disabled (w : World) (p : Process) :
  embeddings_enabled w = false ->
  get_embedding_model w p = (Ret None, p).
Proof.
  unfold embeddings_enabled, get_embedding_model. now intros ->.
Qed.

Lemma get_embedding_model_loaded (w : World) (p : Process)
    (m : SentenceTransformer) :
  EMB_MODEL p = Some m ->
  get_embedding_model w p
  = (Ret (if embeddings_enabled w then Some m else None), p).
Proof.
  unfold embeddings_enabled, get_embedding_model. intros H.
  destruct (pystr_eqb _ _); simpl; [|reflexivity].
  replace (is_None (EMB_MODEL p)) with false by now rewrite H.
  simpl. now rewrite H.
Qed.

Lemma get_embedding_model_load_failed (w : World) (p : Process) :
  embeddings_enabled w = true ->
  EMB_MODEL p = None -> _EMB_LOADING p = false ->
  load_fails w (load_attempts p) ->
  fst (get_embedding_model w p) = Ret None
  /\ EMB_MODEL (snd (get_embedding_model w p)) = None
  /\ _EMB_LOADING (snd (get_embedding_model w p)) = false
  /\ load_attempts (snd (get_embedding_model w p)) = S (load_attempts p).
Proof.
  unfold embeddings_enabled, get_embedding_model.
  intros -> Hm Hl [e He]. simpl. rewrite Hm, Hl, He. simpl. auto.
Qed.

Lemma get_embedding_model_invariant (w : World) (p : Process) :
  loader_invariant w p ->
  loader_invariant w (snd (get_embedding_model w p)).
Proof.
  intros [Hl Hk]. unfold get_embedding_model.
  destruct (negb _); simpl; [now split|].
  destruct (EMB_MODEL p) as [m|] eqn:Em; simpl; [now split; rewrite ?Em|].
  rewrite Hl. simpl.
  destruct (load_SentenceTransformer w (load_attempts p)) as [m|e] eqn:El;
    simpl; (split; [reflexivity|]); intros k Hlt;
    simpl in Hk, Hlt.
  - apply Hk. lia.
  - destruct (Nat.eq_dec k (load_attempts p)) as [->|Hne].
    + now exists e.
    + apply Hk. lia.
Qed.

Lemma after_calls_invariant (w : World) (n : nat) (p : Process) :
  loader_invariant w p -> loader_invariant w (after_calls w n p).
Proof.
  revert p; induction n as [|n IH]; simpl; intros p H; [exact H|].
  apply IH. now apply get_embedding_model_invariant.
Qed.

Lemma after_calls_disabled (w : World) (n : nat) (p : Process) :
  embeddings_enabled w = false -> after_calls w n p = p.
Proof.
  intros H. induction n as [|n IH]; simpl; [reflexivity|].
  now rewrite (get_embedding_model_disabled w p H).
Qed.

Lemma after_calls_all_fail (w : World) (n : nat) (p : Process) :
  embeddings_enabled w = true ->
  EMB_MODEL p = None -> _EMB_LOADING p = false ->
  (forall k, (k < n)%nat -> load_fails w (load_attempts p + k)) ->
  load_attempts (after_calls w n p) = (load_attempts p + n)%nat
  /\ EMB_MODEL (after_calls w n p) = None.
Proof.
  intros He. revert p; induction n as [|n IH]; simpl; intros p Hm Hl Hf.
  - split; [lia|exact Hm].
  - assert (H0 : load_fails w (load_attempts p))
      by (replace (load_attempts p) with (load_attempts p + 0)%nat by lia;
          apply Hf; lia).
    destruct (get_embedding_model_load_failed w p He Hm Hl H0)
      as [_ [Hm' [Hl' Ha']]].
    destruct (IH _ Hm' Hl') as [Ha Hm''].
    + intros k Hk. rewrite Ha'.
      replace (S (load_attempts p) + k)%nat with (load_attempts p + S k)%nat
        by lia.
      apply Hf. lia.
    + split; [rewrite Ha, Ha'; lia|exact Hm''].
Qed.

(** C6, as the code has it.  After any number of calls of the loader in one
    process: every load attempt but the last one failed, so at most one load
    succeeds; once a model is held, a call returns it and attempts nothing;
    without [ENABLE_EMBEDDINGS=1] nothing is ever attempted; and a failed
    load is not remembered: the call reports [None], and [n] calls whose
    loads all fail make [n] attempts. *)
Theorem model_loads_once_successfully (w : World) (n : nat) :
  (forall k, (S k < load_attempts (after_calls w n startup))%nat ->
     load_fails w k)
  /\ (forall m, EMB_MODEL (after_calls w n startup) = Some m ->
        get_embedding_model w (after_calls w n startup)
        = (Ret (if embeddings_enabled w then Some m else None),
           after_calls w n startup))
  /\ (embeddings_enabled w = false ->
      load_attempts (after_calls w n startup) = 0%nat)
  /\ (embeddings_enabled w = true ->
      (forall k, (k < n)%nat -> load_fails w k) ->
      load_attempts (after_calls w n startup) = n
      /\ EMB_MODEL (after_calls w n startup) = None
      /\ (load_fails w n ->
          fst (get_embedding_model w (after_calls w n startup)) = Ret None
          /\ load_attempts (after_calls w (S n) startup) = S n)).
Proof.
  assert (Hinv : loader_invariant w (after_calls w n startup)).
  { apply after_calls_invariant. split; [reflexivity|].
    simpl. intros k Hk. lia. }
  split; [|split; [|split]].
  - intros k Hk. destruct Hinv as [_ Hinv]. apply Hinv.
    destruct (is_None _); lia.
  - intros m Hm. now apply get_embedding_model_loaded.
  - intros Hoff. now rewrite after_calls_disabled.
  - intros Hon Hfail.
    destruct (after_calls_all_fail w n startup Hon eq_refl eq_refl Hfail)
      as [Ha Hm].
    split; [exact Ha|]. split; [exact Hm|]. intros Hn. split.
    + apply get_embedding_model_load_failed; try assumption.
      * apply Hinv.
      * now rewrite Ha.
    + assert (Hall : forall k, (k < S n)%nat -> load_fails w k).
      { intros k Hk. destruct (Nat.eq_dec k n) as [->|Hne]; [assumption|].
        apply Hfail. lia. }
      now destruct (after_calls_all_fail w (S n) startup Hon eq_refl eq_refl
                      Hall).
Qed.

Lemma model_loads_once_successfully_witness :
  load_attempts (after_calls world_no_model 3 startup) = 3%nat
  /\ EMB_MODEL (after_calls world_no_model 3 startup) = None
  /\ load_attempts (after_calls world_unranked 3 startup) = 0%nat.
Proof.
  destruct (model_loads_once_successfully world_no_model 3)
    as [_ [_ [_ Hretry]]].
  destruct (model_loads_once_successfully world_unranked 3)
    as [_ [_ [Hoff _]]].
  destruct Hretry as [Ha [Hm _]].
  - reflexivity.
  - intros k _. exists ImportError. reflexivity.
  - split; [exact Ha|]. split; [exact Hm|]. apply Hoff. reflexivity.
Defined.

(** C6 as stated fails: when the model cannot be loaded, two requests in a
    row make two load attempts, one each. *)
Lemma failed_load_is_retried :
  load_attempts (snd (query_literature world_no_model sample_request startup))
  = 1%nat
  /\ load_attempts (two_requests world_no_model sample_request startup)
     = 2%nat.
Proof. split; reflexivity. Qed.

(* ------------------------------------------------------------------ *)
(** * Further properties of the handler *)

(** ** Trimming *)

Lemma lstrip_fixed (s : pystr) :
  match s with
  | [] => True
  | c :: _ => isspace c = false
  end -> lstrip s = s.
Proof.
  destruct s as [|c s]; simpl; [reflexivity|]. now intros ->.
Qed.

Lemma lstrip_idempotent (s : pystr) : lstrip (lstrip s) = lstrip s.
Proof.
  apply lstrip_fixed. destruct (lstrip s) as [|c t] eqn:E; [exact I|].
  now apply lstrip_head in E.
Qed.

Lemma lstrip_keeps_last (l : pystr) (c : N) :
  isspace c = false -> exists u, lstrip (l ++ [c]) = u ++ [c].
Proof.
  intros Hc. induction l as [|x l [u IH]]; simpl.
  - exists []. simpl. now rewrite Hc.
  - destruct (isspace x); [now exists u|]. now exists (x :: l).
Qed.

Lemma lstrip_rstrip (t : pystr) :
  lstrip t = t -> lstrip (rstrip t) = rstrip t.
Proof.
  intros Ht. apply lstrip_fixed. unfold rstrip.
  destruct t as [|c t]; [exact I|].
  assert (Hc : isspace c = false) by exact (lstrip_head (c :: t) c t Ht).
  simpl rev. destruct (lstrip_keeps_last (rev t) c Hc) as [u ->].
  rewrite rev_app_distr. simpl. exact Hc.
Qed.

Lemma rstrip_idempotent (t : pystr) : rstrip (rstrip t) = rstrip t.
Proof.
  unfold rstrip. now rewrite rev_involutive, lstrip_idempotent.
Qed.

Lemma strip_idempotent (s : pystr) : strip (strip s) = strip s.
Proof.
  unfold strip.
  rewrite (lstrip_rstrip (lstrip s) (lstrip_idempotent s)).
  apply rstrip_idempotent.
Qed.

(** X1. The handler sees the symptoms only through their trimmed text: two
    requests with the same [top_k] whose symptoms differ only in leading
    and trailing whitespace end in the same way and leave the same state,
    and a request is served like the request that carries its trimmed
    text. *)
Theorem surrounding_whitespace_ignored (w : World) (p : Process) :
  (forall req1 req2,
      strip (symptoms req1) = strip (symptoms req2) ->
      top_k req1 = top_k req2 ->
      query_literature w req1 p = query_literature w req2 p)
  /\
  (forall req,
      query_literature w
        (QueryRequest_of (strip (symptoms req)) (Some (top_k req))) p
      = query_literature w req p).
Proof.
  assert (Hext : forall req1 req2,
             strip (symptoms req1) = strip (symptoms req2) ->
             top_k req1 = top_k req2 ->
             query_literature w req1 p = query_literature w req2 p).
  { intros req1 req2 Hs Hk. unfold query_literature. now rewrite Hs, Hk. }
  split; [exact Hext|].
  intros req. apply Hext; [|reflexivity]. simpl. apply strip_idempotent.
Qed.

Lemma surrounding_whitespace_ignored_witness :
  query_literature world_ranked (QueryRequest_of (py "fever cough") (Some 3%Z))
    startup
  = query_literature world_ranked sample_request startup.
Proof.
  apply (proj1 (surrounding_whitespace_ignored world_ranked startup)
           (QueryRequest_of (py "fever cough") (Some 3%Z)) sample_request);
    reflexivity.
Defined.

(** ** How a request can end *)

Lemma fetch_europepmc_frame (w : World) (query : pystr) (n : Z)
    (p : Process) :
  same_loader_state p (snd (fetch_europepmc w query n p))
  /\ log (snd (fetch_europepmc w query n p)) = log p.
Proof.
  pose proof (fetch_europepmc_cases w query n p) as H.
  destruct (quote_plus w query) as [q|e]; [|rewrite H; repeat split].
  simpl in H.
  destruct (client_get w (EUROPE_PMC_SEARCH q n)) as [r|e];
    [|rewrite H; repeat split].
  destruct ((200 <=? status_code r) && (status_code r <=? 299))%Z;
    rewrite H; repeat split.
Qed.

(** X2. The handler raises only two HTTP errors.  A 400 means that the
    symptoms are empty or all whitespace, has the fixed detail and leaves
    the process untouched; a 502 means that the symptoms were given and that
    the search step raised the exception whose message is the detail. *)
Theorem http_errors_classified (w : World) (req : QueryRequest)
    (p p' : Process) (c : Z) (d : pystr) :
  query_literature w req p = (HTTPException c d, p') ->
  (c = 400%Z /\ d = py "No symptoms provided"
   /\ forallb isspace (symptoms req) = true /\ p' = p)
  \/
  (c = 502%Z /\ strip (symptoms req) <> []
   /\ exists e,
        fetch_europepmc w (strip (symptoms req)) (top_k req) p = (Raise e, p')
        /\ d = exc_msg e).
Proof.
  unfold query_literature. intros H.
  destruct (strip (symptoms req)) as [|x s] eqn:Es.
  - left. injection H as <- <- <-. repeat split.
    now apply strip_nil_iff.
  - right.
    destruct (fetch_europepmc w (x :: s) (top_k req) p) as [[data|e] p1].
    + destruct (parse_hits w data) as [parsed|e]; [|discriminate].
      destruct (rank w (x :: s) (map fst parsed) (map snd parsed) p1)
        as [[out|e] p2]; discriminate.
    + injection H as <- <- <-. split; [reflexivity|].
      split; [discriminate|]. now exists e.
Qed.

Lemma http_errors_classified_witness :
  (502 = 400 /\ py "timed out" = py "No symptoms provided"
   /\ forallb isspace (symptoms sample_request) = true
   /\ record_get (EUROPE_PMC_SEARCH (py "fever+cough") 3) startup = startup)%Z
  \/
  (502 = 502 /\ strip (symptoms sample_request) <> []
   /\ exists e,
        fetch_europepmc world_down (strip (symptoms sample_request))
          (top_k sample_request) startup
        = (Raise e, record_get (EUROPE_PMC_SEARCH (py "fever+cough") 3) startup)
        /\ py "timed out" = exc_msg e)%Z.
Proof.
  apply (http_errors_classified world_down sample_request startup).
  reflexivity.
Defined.

(** X3. An exception escapes the handler only from the loop over the hits:
    the search had succeeded, the exception is the one the loop raised, and
    the request ends before the ranking step, so the loader was not called
    and nothing was logged. *)
Theorem unhandled_only_from_parsing (w : World) (req : QueryRequest)
    (p p' : Process) (e : exn) :
  query_literature w req p = (Unhandled e, p') ->
  strip (symptoms req) <> []
  /\ (exists data,
        fetch_europepmc w (strip (symptoms req)) (top_k req) p = (Ret data, p')
        /\ parse_hits w data = Raise e)
  /\ same_loader_state p p' /\ log p' = log p.
Proof.
  unfold query_literature. intros H.
  destruct (strip (symptoms req)) as [|x s] eqn:Es; [discriminate|].
  split; [discriminate|].
  pose proof (fetch_europepmc_frame w (x :: s) (top_k req) p) as Hfr.
  destruct (fetch_europepmc w (x :: s) (top_k req) p) as [[data|e'] p1];
    [|discriminate].
  destruct (parse_hits w data) as [parsed|e'] eqn:Ep.
  - destruct (rank_returns w (x :: s) (map fst parsed) (map snd parsed) p1)
      as [out [p2 Hr]].
    rewrite Hr in H. discriminate.
  - injection H as <- <-. split; [now exists data|]. exact Hfr.
Qed.

Lemma unhandled_only_from_parsing_witness :
  exists data,
    fetch_europepmc (world_body (body_of (JList [JInt 7])))
      (strip (symptoms sample_request)) (top_k sample_request) startup
    = (Ret data, record_get (EUROPE_PMC_SEARCH (py "fever+cough") 3) startup)
    /\ parse_hits (world_body (body_of (JList [JInt 7]))) data
       = Raise AttributeError.
Proof.
  apply (unhandled_only_from_parsing
           (world_body (body_of (JList [JInt 7]))) sample_request startup).
  reflexivity.
Defined.

(** ** The record of a hit *)

Lemma py_get_field (d : list (pystr * json)) (k : string) :
  py_get (JDict d) (py k) JNull = Ret (field d k).
Proof.
  unfold py_get, field. now destruct (dict_lookup d (py k)).
Qed.

(** The loop body on an object, written out field by field. *)
Lemma parse_hit_fields (w : World) (hit : json) (r : Match) (a : json) :
  parse_hit w hit = Ret (r, a) ->
  exists d s,
    hit = JDict d
    /\ py_or (field d "abstractText") (JStr []) = JStr s
    /\ r = {| m_title := field d "title";
              m_abstract := JStr s;
              m_snippet :=
                JStr (firstn 400 s
                      ++ (if (400 <? length s)%nat then py "..." else []));
              m_journal := py_or (field d "journalTitle") (JStr []);
              m_year := py_or (field d "pubYear") (JStr []);
              m_source := py "EuropePMC";
              m_url :=
                if truthy (field d "source") then field d "source"
                else JStr (py "https://europepmc.org/article/pmc/"
                           ++ py_str (repr_of w)
                                (if truthy (field d "pmcid")
                                 then field d "pmcid" else field d "id")) |}
    /\ a = py_or (JStr s) (py_or (field d "title") (JStr [])).
Proof.
  intros H. destruct hit as [| | | | |l|d]; try discriminate.
  exists d. unfold parse_hit in H.
  rewrite !py_get_field in H. cbn [rbind] in H.
  replace (if truthy (field d "pmcid") then Ret (field d "pmcid")
           else Ret (field d "id"))
    with (Ret (if truthy (field d "pmcid") then field d "pmcid"
               else field d "id")) in H
    by now destruct (truthy (field d "pmcid")).
  cbn [rbind] in H.
  destruct (py_or (field d "abstractText") (JStr [])) as [| | | |s|l|d'];
    try discriminate.
  exists s. simpl in H. injection H as <- <-. repeat split.
Qed.

(** X4. For a request whose search succeeded, the handler returns a
    payload exactly when every hit is a JSON object whose ["abstractText"]
    is missing, falsy or a string; any other hit makes it fail. *)
Theorem payload_iff_hits_parse (w : World) (req : QueryRequest)
    (p p1 : Process) (data : json) (hits : list json) :
  strip (symptoms req) <> [] ->
  fetch_europepmc w (strip (symptoms req)) (top_k req) p = (Ret data, p1) ->
  hits_of data = Ret hits ->
  (exists out p2, query_literature w req p = (Return out, p2))
  <-> forallb hit_parses hits = true.
Proof.
  intros Hs Hf Hh. split.
  - intros [out [p2 H]]. apply query_literature_Return in H.
    destruct H as [_ [data' [p1' [parsed [rs [Hf' [Hp _]]]]]]].
    rewrite Hf in Hf'. injection Hf' as <- <-.
    pose proof (parse_hits_Forall2 w data hits parsed Hh Hp) as HF.
    apply forallb_forall. intros h Hin.
    apply (parse_hit_total w h). clear -HF Hin.
    induction HF as [|h' ra hs ps Hh' _ IH]; [destruct Hin|].
    destruct Hin as [<-|Hin]; [now exists ra|now apply IH].
  - intros Hwf.
    destruct (rmap_total (parse_hit w) hits) as [parsed Hp].
    { rewrite forallb_forall in Hwf. apply Forall_forall. intros h Hin.
      now apply (parse_hit_total w h), Hwf. }
    destruct (rank_returns w (strip (symptoms req)) (map fst parsed)
                (map snd parsed) p1) as [out [p2 Hr]].
    exists (build_response w out), p2.
    apply query_literature_ranked with p1 data parsed; try assumption.
    unfold parse_hits. now rewrite Hh.
Qed.

Lemma payload_iff_hits_parse_witness :
  (exists out p2,
      query_literature world_ranked sample_request startup = (Return out, p2))
  /\ ~ (exists out p2,
          query_literature (world_body (body_of (JList [JInt 7])))
            sample_request startup = (Return out, p2)).
Proof.
  split.
  - apply (payload_iff_hits_parse world_ranked sample_request startup
             (record_get (EUROPE_PMC_SEARCH (py "fever+cough") 3) startup)
             (body_of (JList sample_hits)) sample_hits);
      try reflexivity. discriminate.
  - intros H.
    apply (payload_iff_hits_parse (world_body (body_of (JList [JInt 7])))
             sample_request startup
             (record_get (EUROPE_PMC_SEARCH (py "fever+cough") 3) startup)
             (body_of (JList [JInt 7])) [JInt 7]) in H;
      try reflexivity; discriminate.
Defined.

(** X5. A payload is returned only after the search service answered with
    a status from 200 to 299 and a body that decodes as JSON; the matches
    are as many as the hits of that body. *)
Theorem payload_needs_2xx (w : World) (req : QueryRequest) (p p2 : Process)
    (out : Payload) :
  query_literature w req p = (Return out, p2) ->
  exists q r data hits,
    quote_plus w (strip (symptoms req)) = Ret q
    /\ client_get w (EUROPE_PMC_SEARCH q (top_k req)) = Ret r
    /\ (200 <= status_code r <= 299)%Z
    /\ json_body r = Ret data
    /\ hits_of data = Ret hits
    /\ length (matches out) = length hits.
Proof.
  intros H. apply query_literature_Return in H.
  destruct H as [_ [data [p1 [parsed [rs [Hf [Hp [Hr ->]]]]]]]].
  pose proof (fetch_europepmc_cases w (strip (symptoms req)) (top_k req) p)
    as Hc.
  destruct (quote_plus w (strip (symptoms req))) as [q|e];
    [|rewrite Hf in Hc; discriminate].
  simpl in Hc.
  destruct (client_get w (EUROPE_PMC_SEARCH q (top_k req))) as [r|e] eqn:Eg;
    [|rewrite Hf in Hc; discriminate].
  destruct ((200 <=? status_code r) && (status_code r <=? 299))%Z eqn:Es;
    [|rewrite Hf in Hc; discriminate].
  rewrite Hf in Hc. injection Hc as Hj _. symmetry in Hj.
  unfold parse_hits in Hp. inv_bind Hp as hits Eh.
  exists q, r, data, hits.
  apply andb_true_iff in Es. destruct Es as [E1 E2].
  apply Z.leb_le in E1, E2.
  repeat split; auto.
  simpl. rewrite (rank_length _ _ _ _ _ _ _ Hr), length_map.
  now apply rmap_length in Hp.
Qed.

Lemma payload_needs_2xx_witness :
  exists q r data hits,
    quote_plus world_ranked (strip (symptoms sample_request)) = Ret q
    /\ client_get world_ranked (EUROPE_PMC_SEARCH q (top_k sample_request))
       = Ret r
    /\ (200 <= status_code r <= 299)%Z
    /\ json_body r = Ret data
    /\ hits_of data = Ret hits
    /\ 3%nat = length hits.
Proof.
  edestruct (payload_needs_2xx world_ranked sample_request startup)
    as [q [r [data [hits [H1 [H2 [H3 [H4 [H5 H6]]]]]]]]].
  - vm_compute. reflexivity.
  - exists q, r, data, hits. repeat split; try assumption; apply H3.
Defined.

(** ** Outbound calls *)

Lemma query_literature_outbound (w : World) (req : QueryRequest)
    (p : Process) (q : pystr) :
  strip (symptoms req) <> [] ->
  quote_plus w (strip (symptoms req)) = Ret q ->
  outbound (snd (query_literature w req p))
  = EUROPE_PMC_SEARCH q (top_k req) :: outbound p.
Proof.
  intros Hs Hq.
  pose proof (fetch_europepmc_outbound w _ q (top_k req) p Hq) as Hfo.
  unfold query_literature.
  destruct (strip (symptoms req)) as [|c s']; [contradiction|].
  destruct (fetch_europepmc w (c :: s') (top_k req) p) as [[data|e] p1];
    simpl in Hfo; subst p1; [|reflexivity].
  destruct (parse_hits w data) as [parsed|e]; [|reflexivity].
  pose proof (rank_outbound w (c :: s') (map fst parsed) (map snd parsed)
                (record_get (EUROPE_PMC_SEARCH q (top_k req)) p)) as Hr.
  destruct (rank w (c :: s') (map fst parsed) (map snd parsed) _)
    as [[out|e] p2]; exact Hr.
Qed.

(** X6. A request makes at most one outbound call, whatever happens: none
    when the symptoms are blank; none when URL-encoding the query raises,
    in which case the answer is a 502 with the message of that exception;
    and otherwise exactly one, to the search URL. *)
Theorem at_most_one_outbound_call (w : World) (req : QueryRequest)
    (p : Process) :
  (strip (symptoms req) = []
   /\ outbound (snd (query_literature w req p)) = outbound p)
  \/
  (exists e,
      strip (symptoms req) <> []
      /\ quote_plus w (strip (symptoms req)) = Raise e
      /\ query_literature w req p = (HTTPException 502 (exc_msg e), p))
  \/
  (exists q,
      strip (symptoms req) <> []
      /\ quote_plus w (strip (symptoms req)) = Ret q
      /\ outbound (snd (query_literature w req p))
         = EUROPE_PMC_SEARCH q (top_k req) :: outbound p).
Proof.
  destruct (strip (symptoms req)) as [|c s] eqn:Es.
  - left. split; [reflexivity|].
    now rewrite (query_literature_blank w req p Es).
  - right.
    assert (Hs : strip (symptoms req) <> [])
      by (rewrite Es; discriminate).
    rewrite <- Es.
    destruct (quote_plus w (strip (symptoms req))) as [q|e] eqn:Eq.
    + right. exists q. split; [exact Hs|]. split; [reflexivity|].
      now apply query_literature_outbound.
    + left. exists e. split; [exact Hs|]. split; [reflexivity|].
      apply query_literature_search_failed; [exact Hs|].
      pose proof (fetch_europepmc_cases w (strip (symptoms req)) (top_k req) p)
        as H.
      now rewrite Eq in H.
Qed.

(** ** Reordering *)

Lemma nth_error_seq_Forall2 {A} (pre l : list A) :
  Forall2 (fun i r => nth_error (pre ++ l) i = Some r)
    (seq (length pre) (length l)) l.
Proof.
  revert pre; induction l as [|x l IH]; intros pre; simpl; constructor.
  - rewrite nth_error_app2 by lia. now rewrite Nat.sub_diag.
  - specialize (IH (pre ++ [x])).
    rewrite <- app_assoc, length_app in IH. simpl in IH.
    now rewrite Nat.add_1_r in IH.
Qed.

Lemma reorder_seq (results : list Match) :
  reorder results (seq 0 (length results)) = Ret results.
Proof.
  apply reorder_spec. exact (nth_error_seq_Forall2 [] results).
Qed.

Lemma Forall2_functional {A B} (R : A -> B -> Prop) (l : list A)
    (m m' : list B) :
  (forall a b b', R a b -> R a b' -> b = b') ->
  Forall2 R l m -> Forall2 R l m' -> m = m'.
Proof.
  intros Hfun H. revert m'.
  induction H as [|a b l m Hab _ IH]; intros m' H'; inversion H'; subst;
    [reflexivity|].
  f_equal; [eapply Hfun; eauto|now apply IH].
Qed.

Lemma reorder_perm (results : list Match) (order : list nat)
    (out : list Match) :
  Permutation order (seq 0 (length results)) ->
  reorder results order = Ret out ->
  Permutation out results.
Proof.
  intros Hp Hr. apply reorder_spec in Hr.
  destruct (Permutation_Forall2 Hp Hr) as [out' [Hperm HF]].
  assert (out' = results) as ->; [|exact Hperm].
  apply (Forall2_functional _ _ _ _
           (fun i r r' (H : nth_error results i = Some r)
                (H' : nth_error results i = Some r') =>
              match eq_trans (eq_sym H) H' with eq_refl => eq_refl end)
           HF).
  exact (nth_error_seq_Forall2 [] results).
Qed.

Lemma rank_perm (w : World) (s : pystr) (results : list Match)
    (abstracts : list json) (p p' : Process) (out : list Match) :
  rank w s results abstracts p = (Ret out, p') -> Permutation out results.
Proof.
  intros H. apply rank_cases in H.
  destruct H as [_ [->|[scores [order [Ho Hr]]]]]; [reflexivity|].
  apply ranking_order_perm in Ho.
  now apply reorder_perm with order.
Qed.

(** X7. Ranking only reorders: in every payload the matches are a
    permutation of the records built from the hits, so no record is lost or
    repeated, whether the ranking ran, was skipped or failed. *)
Theorem matches_permute_records (w : World) (req : QueryRequest)
    (p p2 : Process) (out : Payload) :
  query_literature w req p = (Return out, p2) ->
  exists data p1 parsed,
    fetch_europepmc w (strip (symptoms req)) (top_k req) p = (Ret data, p1)
    /\ parse_hits w data = Ret parsed
    /\ Permutation (matches out) (map fst parsed).
Proof.
  intros H. apply query_literature_Return in H.
  destruct H as [_ [data [p1 [parsed [rs [Hf [Hp [Hr ->]]]]]]]].
  exists data, p1, parsed. split; [exact Hf|]. split; [exact Hp|].
  simpl. now apply rank_perm in Hr.
Qed.

Lemma matches_permute_records_witness :
  exists data p1 parsed,
    fetch_europepmc world_ranked (strip (symptoms sample_request))
      (top_k sample_request) startup = (Ret data, p1)
    /\ parse_hits world_ranked data = Ret parsed
    /\ length parsed = 3%nat.
Proof.
  edestruct (matches_permute_records world_ranked sample_request startup)
    as [data [p1 [parsed [Hf [Hp Hperm]]]]].
  - vm_compute. reflexivity.
  - exists data, p1, parsed. split; [exact Hf|]. split; [exact Hp|].
    apply Permutation_length in Hperm. rewrite length_map in Hperm.
    rewrite <- Hperm. reflexivity.
Defined.

(** ** The fields of a match *)

Lemma matches_Forall (P : Match -> Prop) (w : World) (req : QueryRequest)
    (p p' : Process) (out : Payload) :
  (forall hit r a, parse_hit w hit = Ret (r, a) -> P r) ->
  query_literature w req p = (Return out, p') ->
  Forall P (matches out).
Proof.
  intros HP H. apply query_literature_Return in H.
  destruct H as [_ [data [p1 [parsed [rs [_ [Hp [Hr ->]]]]]]]]. simpl.
  apply Forall_forall. intros r Hin.
  apply (rank_incl _ _ _ _ _ _ _ Hr) in Hin.
  apply in_map_iff in Hin. destruct Hin as [[r' a] [<- Hin]].
  unfold parse_hits in Hp. inv_bind Hp as hits Eh.
  apply rmap_Forall2 in Hp. simpl. clear -HP Hp Hin.
  induction Hp as [|h ra hs ps Hh _ IH]; [destruct Hin|].
  destruct Hin as [->|Hin]; [now apply HP with h a|now apply IH].
Qed.

Lemma py_or_defaulted (v : json) : field_defaulted (py_or v (JStr [])).
Proof.
  unfold field_defaulted, py_or.
  destruct (truthy v) eqn:E; [now left|now right].
Qed.

(** X8. Every match of every payload has the source label ["EuropePMC"],
    a string as abstract, a journal and a year that are a truthy value of
    the hit or the empty string (never [None]), and a URL that is never
    empty or [None]. *)
Theorem match_fields_defaulted (w : World) (req : QueryRequest)
    (p p' : Process) (out : Payload) :
  query_literature w req p = (Return out, p') ->
  Forall (fun r =>
            m_source r = py "EuropePMC"
            /\ (exists s, m_abstract r = JStr s)
            /\ field_defaulted (m_journal r)
            /\ field_defaulted (m_year r)
            /\ truthy (m_url r) = true)
    (matches out).
Proof.
  apply matches_Forall. intros hit r a H.
  apply parse_hit_fields in H. destruct H as [d [s [_ [_ [-> _]]]]]. simpl.
  split; [reflexivity|]. split; [now exists s|].
  split; [apply py_or_defaulted|]. split; [apply py_or_defaulted|].
  destruct (truthy (field d "source")) eqn:E; [exact E|reflexivity].
Qed.

Lemma match_fields_defaulted_witness :
  exists out p',
    query_literature world_ranked sample_request startup = (Return out, p')
    /\ Forall (fun r => m_source r = py "EuropePMC") (matches out).
Proof.
  eexists. eexists. split; [vm_compute; reflexivity|].
  eapply Forall_impl;
    [|eapply (match_fields_defaulted world_ranked sample_request startup);
      vm_compute; reflexivity].
  intros r H. apply H.
Defined.

(** X9. The URL of a record: the hit's ["source"] when that is truthy;
    otherwise the Europe PMC article link built from the hit's ["pmcid"],
    or from its ["id"] when the ["pmcid"] is missing or falsy.  A hit with
    none of the three gets the link that ends in ["None"]. *)
Theorem url_fallback (w : World) (d : list (pystr * json)) (r : Match)
    (a : json) :
  parse_hit w (JDict d) = Ret (r, a) ->
  (truthy (field d "source") = true -> m_url r = field d "source")
  /\ (truthy (field d "source") = false ->
      truthy (field d "pmcid") = true ->
      m_url r = JStr (py "https://europepmc.org/article/pmc/"
                      ++ py_str (repr_of w) (field d "pmcid")))
  /\ (truthy (field d "source") = false ->
      truthy (field d "pmcid") = false ->
      m_url r = JStr (py "https://europepmc.org/article/pmc/"
                      ++ py_str (repr_of w) (field d "id")))
  /\ (truthy (field d "source") = false ->
      truthy (field d "pmcid") = false ->
      dict_lookup d (py "id") = None ->
      m_url r = JStr (py "https://europepmc.org/article/pmc/None")).
Proof.
  intros H. apply parse_hit_fields in H.
  destruct H as [d' [s [Hd [_ [-> _]]]]]. injection Hd as <-. simpl.
  repeat split.
  - now intros ->.
  - now intros -> ->.
  - now intros -> ->.
  - intros -> -> Hid. unfold field at 1. now rewrite Hid.
Qed.

Lemma url_fallback_witness :
  exists r a,
    parse_hit world_ranked (JDict anonymous) = Ret (r, a)
    /\ m_url r = JStr (py "https://europepmc.org/article/pmc/None").
Proof.
  edestruct (url_fallback world_ranked anonymous) as [_ [_ [_ H]]].
  - vm_compute. reflexivity.
  - eexists. eexists. split; [vm_compute; reflexivity|].
    apply H; reflexivity.
Defined.

(** ** Ranking at the bounds *)

Section StableSortSorted.
Variables (K A : Type).
Variable ltb : K -> K -> bool.

(** A list whose keys never decrease is left as it is by the stable sort. *)
Lemma stable_sort_sorted_id (l : list (K * A)) :
  StronglySorted (fun x y => ltb (fst y) (fst x) = false) l ->
  stable_sort ltb l = l.
Proof.
  induction 1 as [|x l Hs IH Hall]; simpl; [reflexivity|].
  rewrite IH. destruct l as [|y l']; [reflexivity|]. simpl.
  inversion Hall as [|y' l'' Hy _]; subst. now rewrite Hy.
Qed.

(** A list whose keys never increase is left as it is by
    [sorted(..., reverse=True)]. *)
Lemma sort_keyed_reverse_sorted_id (l : list (K * A)) :
  StronglySorted (fun x y => ltb (fst x) (fst y) = false) l ->
  sort_keyed ltb true l = l.
Proof.
  intros H. simpl. rewrite stable_sort_sorted_id.
  - apply rev_involutive.
  - exact (StronglySorted_rev
             (fun x y => ltb (fst x) (fst y) = false) l H).
Qed.
End StableSortSorted.

Lemma ranking_order_non_increasing (n : nat) (scores : list pyfloat) :
  (n <= length scores)%nat -> non_increasing scores ->
  ranking_order n scores = Ret (seq 0 n).
Proof.
  intros Hn Hdesc. unfold ranking_order, py_sorted.
  destruct (rmap_total (fun i => (k <- index scores i ;; Ret (k, i))%res)
              (seq 0 n)) as [keyed E].
  { apply Forall_forall. intros i Hi. apply in_seq in Hi. unfold index.
    destruct (nth_error scores i) as [s|] eqn:E; simpl; [eauto|].
    apply nth_error_None in E. lia. }
  rewrite E. cbn [rbind].
  destruct (keyed_scores _ _ _ E) as [Hsnd Hkey].
  rewrite sort_keyed_reverse_sorted_id; [now rewrite Hsnd|].
  assert (Hin : StronglySorted
                  (fun x y : pyfloat * nat => (snd x < snd y)%nat) keyed).
  { apply (StronglySorted_of_map snd lt). rewrite Hsnd.
    apply StronglySorted_seq. }
  revert Hin. apply StronglySorted_weaken.
  intros x y Hx Hy Hlt. apply float_leb_not_ltb.
  rewrite Forall_forall in Hkey.
  exact (StronglySorted_nth _ _ Hdesc (snd x) (snd y) (fst x) (fst y) Hlt
           (Hkey x Hx) (Hkey y Hy)).
Qed.

Lemma rank_with_scores (w : World) (s : pystr)
    (parsed : list (Match * json)) (p p2 : Process)
    (m : SentenceTransformer) (scores : list pyfloat) :
  parsed <> [] ->
  get_embedding_model w p = (Ret (Some m), p2) ->
  score_documents w m s (map snd parsed) = Ret scores ->
  rank w s (map fst parsed) (map snd parsed) p
  = match (order <- ranking_order (length (map fst parsed)) scores ;;
           reorder (map fst parsed) order)%res with
    | Ret out => (Ret out, p2)
    | Raise e => (Ret (map fst parsed), record_log (LogException e) p2)
    end.
Proof.
  intros Hne Hm Hsc.
  unfold rank, try_except, rank_body, mbind. rewrite Hm.
  remember (map snd parsed) as abstracts eqn:Ea.
  destruct abstracts as [|a abstracts].
  - destruct parsed; [contradiction|discriminate].
  - unfold lift. rewrite Hsc. unfold rbind at 1.
    now destruct (rbind _ _).
Qed.

(** X10. When the model yields fewer scores than there are hits, looking
    up the missing score raises [IndexError] inside the ranking step: the
    handler logs it and returns the matches in search order. *)
Theorem short_scores_keep_order (w : World) (req : QueryRequest)
    (p p1 p2 : Process) (data : json) (parsed : list (Match * json))
    (m : SentenceTransformer) (scores : list pyfloat) :
  strip (symptoms req) <> [] ->
  fetch_europepmc w (strip (symptoms req)) (top_k req) p = (Ret data, p1) ->
  parse_hits w data = Ret parsed ->
  get_embedding_model w p1 = (Ret (Some m), p2) ->
  score_documents w m (strip (symptoms req)) (map snd parsed) = Ret scores ->
  (length scores < length parsed)%nat ->
  query_literature w req p
  = (Return (build_response w (map fst parsed)),
     record_log (LogException IndexError) p2).
Proof.
  intros Hs Hf Hp Hm Hsc Hlen.
  apply query_literature_ranked with p1 data parsed; try assumption.
  rewrite (rank_with_scores w _ parsed p1 p2 m scores); try assumption.
  - rewrite ranking_order_fails; [reflexivity|]. now rewrite length_map.
  - intros ->. simpl in Hlen. lia.
Qed.

Lemma short_scores_keep_order_witness :
  exists p2,
    query_literature world_short_model sample_request startup
    = (Return (build_response world_short_model
                 (match parse_hits world_short_model
                          (body_of (JList sample_hits)) with
                  | Ret parsed => map fst parsed
                  | Raise _ => []
                  end)),
       record_log (LogException IndexError) p2).
Proof.
  eexists.
  eapply (short_scores_keep_order world_short_model sample_request startup)
    with (scores := [FNum 1]).
  - discriminate.
  - vm_compute. reflexivity.
  - vm_compute. reflexivity.
  - vm_compute. reflexivity.
  - vm_compute. reflexivity.
  - vm_compute. lia.
Defined.

(** X11. When the scores already never increase along the search results
    (for instance when they are all equal), a successful ranking returns
    the matches in search order. *)
Theorem ranked_input_keeps_order (w : World) (req : QueryRequest)
    (p p1 p2 : Process) (data : json) (parsed : list (Match * json))
    (m : SentenceTransformer) (scores : list pyfloat) :
  strip (symptoms req) <> [] ->
  fetch_europepmc w (strip (symptoms req)) (top_k req) p = (Ret data, p1) ->
  parse_hits w data = Ret parsed ->
  parsed <> [] ->
  get_embedding_model w p1 = (Ret (Some m), p2) ->
  score_documents w m (strip (symptoms req)) (map snd parsed) = Ret scores ->
  (length parsed <= length scores)%nat ->
  non_increasing scores ->
  query_literature w req p
  = (Return (build_response w (map fst parsed)), p2).
Proof.
  intros Hs Hf Hp Hne Hm Hsc Hlen Hdesc.
  apply query_literature_ranked with p1 data parsed; try assumption.
  rewrite (rank_with_scores w _ parsed p1 p2 m scores); try assumption.
  rewrite ranking_order_non_increasing;
    [|now rewrite length_map|exact Hdesc].
  cbn [rbind]. now rewrite reorder_seq.
Qed.

Lemma ranked_input_keeps_order_witness :
  exists out p2,
    query_literature world_flat_model sample_request startup
    = (Return out, p2)
    /\ map m_title (matches out)
       = [JStr (py "Fever in adults"); JNull; JStr (py "Cough")].
Proof.
  eexists. eexists. split.
  - eapply (ranked_input_keeps_order world_flat_model sample_request startup)
      with (scores := [FNum 1; FNum 1; FNum 1]).
    + discriminate.
    + vm_compute. reflexivity.
    + vm_compute. reflexivity.
    + discriminate.
    + vm_compute. reflexivity.
    + vm_compute. reflexivity.
    + vm_compute. lia.
    + repeat constructor.
  - vm_compute. reflexivity.
Defined.

(** ** The module state across requests *)

Lemma same_loader_state_refl (p : Process) : same_loader_state p p.
Proof. repeat split. Qed.

Lemma same_loader_state_trans (p q r : Process) :
  same_loader_state p q -> same_loader_state q r -> same_loader_state p r.
Proof.
  intros [H1 [H2 H3]] [H4 [H5 H6]]. repeat split; congruence.
Qed.

Lemma same_loader_state_log (r : LogRecord) (p : Process) :
  same_loader_state p (record_log r p).
Proof. repeat split. Qed.

(** The loader reads nothing but the loader state. *)
Lemma get_embedding_model_ext (w : World) (p q : Process) :
  same_loader_state p q ->
  fst (get_embedding_model w p) = fst (get_embedding_model w q)
  /\ same_loader_state (snd (get_embedding_model w p))
       (snd (get_embedding_model w q)).
Proof.
  intros [Hm [Hl Ha]]. unfold get_embedding_model.
  destruct (negb _); [now repeat split|].
  rewrite Hm, Hl, Ha.
  destruct (is_None (EMB_MODEL q) && negb (_EMB_LOADING q)).
  - destruct (load_SentenceTransformer w (load_attempts q));
      (split; [reflexivity|]); unfold same_loader_state; simpl;
      rewrite Ha; repeat split.
  - simpl. split; [now rewrite Hm|now repeat split].
Qed.

Lemma get_embedding_model_attempts (w : World) (p : Process) :
  (load_attempts p <= load_attempts (snd (get_embedding_model w p))
   <= S (load_attempts p))%nat.
Proof.
  unfold get_embedding_model.
  destruct (negb _); simpl; [lia|].
  destruct (is_None (EMB_MODEL p) && negb (_EMB_LOADING p)); [|lia].
  destruct (load_SentenceTransformer w (load_attempts p)); simpl; lia.
Qed.

Lemma get_embedding_model_attempted (w : World) (p : Process) :
  embeddings_enabled w = true ->
  EMB_MODEL p = None -> _EMB_LOADING p = false ->
  load_attempts (snd (get_embedding_model w p)) = S (load_attempts p).
Proof.
  unfold embeddings_enabled, get_embedding_model. intros -> -> ->. simpl.
  now destruct (load_SentenceTransformer w (load_attempts p)).
Qed.

Lemma loader_invariant_ext (w : World) (p q : Process) :
  same_loader_state p q -> loader_invariant w p -> loader_invariant w q.
Proof.
  intros [Hm [Hl Ha]] [H1 H2]. unfold loader_invariant.
  rewrite <- Hm, <- Hl, <- Ha. now split.
Qed.

(** The state in which [rank] leaves the process: the state after the
    loader, with one more log record when the step failed. *)
Lemma rank_state (w : World) (s : pystr) (results : list Match)
    (abstracts : list json) (p : Process) :
  same_loader_state (snd (get_embedding_model w p))
    (snd (rank w s results abstracts p)).
Proof.
  unfold rank, try_except, rank_body, mbind.
  destruct (get_embedding_model w p) as [[model|e] p1]; simpl.
  - destruct model as [m|]; [destruct abstracts as [|a abstracts]|];
      unfold mret, lift; simpl; try apply same_loader_state_refl.
    destruct (rbind _ _); simpl;
      [apply same_loader_state_refl|apply same_loader_state_log].
  - apply same_loader_state_log.
Qed.

(** The loader state after a request: untouched when the request ends
    before the ranking step, and otherwise as one call of the loader leaves
    it. *)
Lemma query_literature_state (w : World) (req : QueryRequest)
    (p : Process) :
  same_loader_state p (snd (query_literature w req p))
  \/ same_loader_state (snd (get_embedding_model w p))
       (snd (query_literature w req p)).
Proof.
  unfold query_literature.
  destruct (strip (symptoms req)) as [|c s];
    [left; apply same_loader_state_refl|].
  destruct (fetch_europepmc_frame w (c :: s) (top_k req) p) as [Hfr _].
  destruct (fetch_europepmc w (c :: s) (top_k req) p) as [[data|e] p1];
    simpl in Hfr; [|now left].
  destruct (parse_hits w data) as [parsed|e]; [|now left].
  right.
  pose proof (rank_state w (c :: s) (map fst parsed) (map snd parsed) p1)
    as Hr.
  destruct (get_embedding_model_ext w p p1 Hfr) as [_ Hg].
  destruct (rank w (c :: s) (map fst parsed) (map snd parsed) p1)
    as [[out|e] p2]; simpl in *;
    exact (same_loader_state_trans _ _ _ Hg Hr).
Qed.

Lemma serve_app (w : World) (reqs : list QueryRequest) (req : QueryRequest)
    (p : Process) :
  serve w (reqs ++ [req]) p
  = snd (query_literature w req (serve w reqs p)).
Proof.
  revert p; induction reqs as [|r reqs IH]; intros p; simpl;
    [reflexivity|apply IH].
Qed.

Lemma query_literature_invariant (w : World) (req : QueryRequest)
    (p : Process) :
  loader_invariant w p ->
  loader_invariant w (snd (query_literature w req p)).
Proof.
  intros H. destruct (query_literature_state w req p) as [Hs|Hs].
  - exact (loader_invariant_ext w _ _ Hs H).
  - apply (loader_invariant_ext w _ _ Hs).
    now apply get_embedding_model_invariant.
Qed.

Lemma query_literature_attempts (w : World) (req : QueryRequest)
    (p : Process) :
  (load_attempts p <= load_attempts (snd (query_literature w req p))
   <= S (load_attempts p))%nat.
Proof.
  destruct (query_literature_state w req p) as [[_ [_ Ha]]|[_ [_ Ha]]];
    rewrite <- Ha; [lia|apply get_embedding_model_attempts].
Qed.

(** X12. However many requests one process serves, and whatever they are:
    no load is left in progress between requests, every load attempt but
    the last one failed (so at most one load succeeds), and there are at
    most as many load attempts as requests. *)
Theorem loader_discipline_across_requests (w : World)
    (reqs : list QueryRequest) :
  _EMB_LOADING (serve w reqs startup) = false
  /\ (forall k, (S k < load_attempts (serve w reqs startup))%nat ->
        load_fails w k)
  /\ (load_attempts (serve w reqs startup) <= length reqs)%nat.
Proof.
  assert (Hinv : loader_invariant w (serve w reqs startup)
                 /\ (load_attempts (serve w reqs startup) <= length reqs)%nat).
  { induction reqs as [|req reqs [IH1 IH2]] using rev_ind.
    - split; [|simpl; lia]. split; [reflexivity|]. simpl. intros k Hk. lia.
    - rewrite serve_app, length_app. simpl. split.
      + now apply query_literature_invariant.
      + pose proof (query_literature_attempts w req (serve w reqs startup)).
        lia. }
  destruct Hinv as [[Hl Hk] Hn]. split; [exact Hl|]. split; [|exact Hn].
  intros k Hlt. apply Hk. destruct (is_None _); lia.
Qed.

(** X13. A request with symptoms whose search returns no hits gets the
    empty payload, but the loader is still called: with embeddings enabled
    and no model held, that request makes a load attempt. *)
Theorem no_hits_still_calls_loader (w : World) (req : QueryRequest)
    (p p1 : Process) (data : json) :
  strip (symptoms req) <> [] ->
  fetch_europepmc w (strip (symptoms req)) (top_k req) p = (Ret data, p1) ->
  hits_of data = Ret [] ->
  query_literature w req p
  = (Return (build_response w []), snd (get_embedding_model w p1))
  /\ (embeddings_enabled w = true ->
      EMB_MODEL p = None -> _EMB_LOADING p = false ->
      load_attempts (snd (query_literature w req p)) = S (load_attempts p)).
Proof.
  intros Hs Hf Hh.
  assert (Hp : parse_hits w data = Ret [])
    by (unfold parse_hits; now rewrite Hh).
  assert (Hq : query_literature w req p
               = (Return (build_response w []),
                  snd (get_embedding_model w p1))).
  { apply query_literature_ranked with p1 data (@nil (Match * json));
      try assumption.
    unfold rank, try_except, rank_body, mbind. simpl.
    destruct (get_embedding_model w p1) as [[[m|]|e] p2] eqn:Eg;
      try reflexivity.
    destruct (get_embedding_model_returns w p1) as [mo Hmo].
    rewrite Eg in Hmo. discriminate. }
  split; [exact Hq|]. intros Hon Hm Hl. rewrite Hq. simpl.
  pose proof (fetch_europepmc_frame w (strip (symptoms req)) (top_k req) p)
    as [[Hm1 [Hl1 Ha1]] _].
  rewrite Hf in Hm1, Hl1, Ha1. simpl in Hm1, Hl1, Ha1.
  rewrite get_embedding_model_attempted; congruence.
Qed.

Lemma no_hits_still_calls_loader_witness :
  query_literature
    (sample_world (Some "1"%string) (Ret (ok_response (body_of (JList []))))
       (fun _ => Raise ImportError))
    sample_request startup
  = (Return {| summary := summary_placeholder 0;
               matches := []; citations := [] |},
     snd (get_embedding_model
            (sample_world (Some "1"%string)
               (Ret (ok_response (body_of (JList []))))
               (fun _ => Raise ImportError))
            (record_get (EUROPE_PMC_SEARCH (py "fever+cough") 3) startup))).
Proof.
  apply (no_hits_still_calls_loader
           (sample_world (Some "1"%string)
              (Ret (ok_response (body_of (JList []))))
              (fun _ => Raise ImportError))
           sample_request startup
           (record_get (EUROPE_PMC_SEARCH (py "fever+cough") 3) startup)
           (body_of (JList []))).
  - discriminate.
  - reflexivity.
  - reflexivity.
Defined.

Lemma pystr_eqb_eq (a b : pystr) : pystr_eqb a b = true <-> a = b.
Proof.
  revert b; induction a as [|x a IH]; intros [|y b]; simpl;
    try (split; [discriminate|discriminate]); [now split|].
  rewrite andb_true_iff, N.eqb_eq, IH. split.
  - now intros [-> ->].
  - intros H. injection H as -> ->. now split.
Qed.

Lemma embeddings_enabled_iff (w : World) :
  embeddings_enabled w = true
  <-> environ w (py "ENABLE_EMBEDDINGS") = Some (py "1").
Proof.
  unfold embeddings_enabled, environ_get. rewrite pystr_eqb_eq.
  destruct (environ w (py "ENABLE_EMBEDDINGS")) as [v|]; split; intros H;
    try discriminate; congruence.
Qed.

(** X14. Embeddings are on only while [ENABLE_EMBEDDINGS] is exactly
    ["1"].  With any other value, or with the variable unset, the loader
    returns [None] and changes nothing, even when the process holds a
    model. *)
Theorem flag_must_be_exactly_1 (w : World) (p : Process) :
  environ w (py "ENABLE_EMBEDDINGS") <> Some (py "1") ->
  get_embedding_model w p = (Ret None, p).
Proof.
  intros H. apply get_embedding_model_disabled.
  destruct (embeddings_enabled w) eqn:E; [|reflexivity].
  now apply embeddings_enabled_iff in E.
Qed.

Lemma flag_must_be_exactly_1_witness :
  get_embedding_model world_flag_true loaded = (Ret None, loaded).
Proof.
  apply (flag_must_be_exactly_1 world_flag_true loaded). discriminate.
Defined.

Lemma loader_state_kept (w : World) (req : QueryRequest) (p : Process) :
  (exists m, EMB_MODEL p = Some m) \/ embeddings_enabled w = false ->
  same_loader_state p (snd (query_literature w req p)).
Proof.
  intros H. destruct (query_literature_state w req p) as [Hs|Hs];
    [exact Hs|].
  destruct H as [[m Hm]|Hoff].
  - now rewrite (get_embedding_model_loaded w p m Hm) in Hs.
  - now rewrite (get_embedding_model_disabled w p Hoff) in Hs.
Qed.

Lemma fetch_europepmc_fst (w : World) (query : pystr) (n : Z)
    (p q : Process) :
  fst (fetch_europepmc w query n p) = fst (fetch_europepmc w query n q).
Proof.
  pose proof (fetch_europepmc_cases w query n p) as Hp.
  pose proof (fetch_europepmc_cases w query n q) as Hq.
  destruct (quote_plus w query) as [u|e]; [|now rewrite Hp, Hq].
  simpl in Hp, Hq.
  destruct (client_get w (EUROPE_PMC_SEARCH u n)) as [r|e];
    [|now rewrite Hp, Hq].
  destruct ((200 <=? status_code r) && (status_code r <=? 299))%Z;
    now rewrite Hp, Hq.
Qed.

Lemma rank_ext (w : World) (s : pystr) (results : list Match)
    (abstracts : list json) (p q : Process) :
  same_loader_state p q ->
  fst (rank w s results abstracts p) = fst (rank w s results abstracts q).
Proof.
  intros H. destruct (get_embedding_model_ext w p q H) as [Hf _].
  unfold rank, try_except, rank_body, mbind.
  destruct (get_embedding_model w p) as [r1 p1].
  destruct (get_embedding_model w q) as [r2 q1].
  simpl in Hf. subst r2.
  destruct r1 as [[m|]|e]; [destruct abstracts as [|a abstracts]| |];
    unfold mret, lift; try reflexivity.
  now destruct (rbind _ _).
Qed.

(** The reply to a request depends on the module state only through the
    loader state. *)
Lemma query_literature_ext (w : World) (req : QueryRequest)
    (p q : Process) :
  same_loader_state p q ->
  fst (query_literature w req p) = fst (query_literature w req q).
Proof.
  intros H. unfold query_literature.
  destruct (strip (symptoms req)) as [|c s]; [reflexivity|].
  pose proof (fetch_europepmc_fst w (c :: s) (top_k req) p q) as Hf.
  destruct (fetch_europepmc_frame w (c :: s) (top_k req) p) as [Hp _].
  destruct (fetch_europepmc_frame w (c :: s) (top_k req) q) as [Hq _].
  destruct (fetch_europepmc w (c :: s) (top_k req) p) as [r1 p1].
  destruct (fetch_europepmc w (c :: s) (top_k req) q) as [r2 q1].
  simpl in Hf, Hp, Hq. subst r2.
  destruct r1 as [data|e]; [|reflexivity].
  destruct (parse_hits w data) as [parsed|e]; [|reflexivity].
  assert (H1 : same_loader_state p1 q1).
  { destruct H as [A [B C]], Hp as [A1 [B1 C1]], Hq as [A2 [B2 C2]].
    repeat split; congruence. }
  pose proof (rank_ext w (c :: s) (map fst parsed) (map snd parsed) p1 q1 H1)
    as Hr.
  destruct (rank w (c :: s) (map fst parsed) (map snd parsed) p1)
    as [[o1|e1] p2];
  destruct (rank w (c :: s) (map fst parsed) (map snd parsed) q1)
    as [[o2|e2] q2]; simpl in Hr |- *; congruence.
Qed.

Lemma serve_loader_state (w : World) (reqs : list QueryRequest)
    (p : Process) :
  (exists m, EMB_MODEL p = Some m) \/ embeddings_enabled w = false ->
  same_loader_state p (serve w reqs p).
Proof.
  revert p; induction reqs as [|req reqs IH]; intros p H; simpl;
    [apply same_loader_state_refl|].
  pose proof (loader_state_kept w req p H) as Hk.
  apply (same_loader_state_trans _ _ _ Hk). apply IH.
  destruct H as [[m Hm]|Hoff]; [left|now right].
  exists m. destruct Hk as [Hk _]. congruence.
Qed.

(** X15. Once the process holds a model, or while embeddings are off, the
    requests served so far leave no trace on later replies: a request gets
    the same reply after any sequence of earlier requests as it gets at
    once, the model held is never replaced, and no further load is
    attempted.  In particular a repeated request gets the same reply. *)
Theorem earlier_requests_leave_no_trace (w : World)
    (reqs : list QueryRequest) (req : QueryRequest) (p : Process) :
  (exists m, EMB_MODEL p = Some m) \/ embeddings_enabled w = false ->
  fst (query_literature w req (serve w reqs p))
  = fst (query_literature w req p)
  /\ EMB_MODEL (serve w reqs p) = EMB_MODEL p
  /\ load_attempts (serve w reqs p) = load_attempts p.
Proof.
  intros H. pose proof (serve_loader_state w reqs p H) as Hs.
  split.
  - symmetry. now apply query_literature_ext.
  - destruct Hs as [Hm [_ Ha]]. now split.
Qed.

Lemma earlier_requests_leave_no_trace_witness :
  fst (query_literature world_ranked sample_request
         (serve world_ranked [sample_request] loaded))
  = fst (query_literature world_ranked sample_request loaded).
Proof.
  apply (earlier_requests_leave_no_trace world_ranked [sample_request]
           sample_request loaded).
  left. exists sample_model. reflexivity.
Defined.

(** X16. The snippet of every match of every payload is a string of at
    most 403 characters that starts with the abstract's first 400
    characters (with the whole abstract when that is shorter). *)
Theorem snippet_bounded (w : World) (req : QueryRequest) (p p' : Process)
    (out : Payload) :
  query_literature w req p = (Return out, p') ->
  Forall (fun r =>
            exists s t,
              m_abstract r = JStr s /\ m_snippet r = JStr t
              /\ (length t <= 403)%nat
              /\ firstn 400 t = firstn 400 s)
    (matches out).
Proof.
  apply matches_Forall. intros hit r a H.
  apply parse_hit_fields in H. destruct H as [d [s [_ [_ [-> _]]]]].
  exists s. eexists. split; [reflexivity|]. split; [reflexivity|].
  split.
  - rewrite length_app, length_firstn.
    destruct (400 <? length s)%nat;
      [change (length (py "...")) with 3%nat|cbn [length]]; lia.
  - destruct (Nat.ltb_spec 400 (length s)) as [Hlt|Hge].
    + rewrite firstn_app, length_firstn.
      replace (400 - Nat.min 400 (length s))%nat with 0%nat by lia.
      change (firstn 0 (py "...")) with (@nil N).
      now rewrite app_nil_r, firstn_firstn, Nat.min_id.
    + now rewrite app_nil_r, firstn_firstn, Nat.min_id.
Qed.

Lemma snippet_bounded_witness :
  exists out p',
    query_literature (world_body (body_of (JList [long_hit]))) sample_request
      startup = (Return out, p')
    /\ Forall (fun r => exists s t,
                 m_abstract r = JStr s /\ m_snippet r = JStr t
                 /\ (length t <= 403)%nat /\ firstn 400 t = firstn 400 s)
         (matches out).
Proof.
  eexists. eexists. split; [vm_compute; reflexivity|].
  eapply (snippet_bounded (world_body (body_of (JList [long_hit])))
            sample_request startup).
  vm_compute. reflexivity.
Defined.

(** ** The snippet *)

Lemma parse_hit_snippet (w : World) (hit : json) (r : Match) (a : json) :
  parse_hit w hit = Ret (r, a) -> snippet_cut_from hit r.
Proof.
  intros H. apply parse_hit_fields in H.
  destruct H as [d [s [Hd [Hor [-> _]]]]].
  exists d, s. split; [exact Hd|]. split; [exact Hor|].
  cbn [m_abstract m_snippet].
  split; [reflexivity|]. split; intros Hlen.
  - apply Nat.ltb_lt in Hlen. now rewrite Hlen.
  - rewrite (proj2 (Nat.ltb_ge 400 (length s)) Hlen).
    now rewrite app_nil_r, firstn_short.
Qed.

Lemma Forall2_In_right {A B} (R : A -> B -> Prop) (l : list A) (m : list B)
    (b : B) :
  Forall2 R l m -> In b m -> exists a, In a l /\ R a b.
Proof.
  induction 1 as [|x y l m Hxy _ IH]; intros Hin; [destruct Hin|].
  destruct Hin as [<-|Hin].
  - exists x. split; [now left|exact Hxy].
  - destruct (IH Hin) as [a [Ha HR]]. exists a. split; [now right|exact HR].
Qed.

(** C7. The snippet is cut from the hit's abstract: for every hit the loop
    accepts, the abstract of the record is the hit's ["abstractText"] (the
    empty string when that is missing or falsy), and the snippet is its
    first 400 characters followed by ["..."] when it has more than 400
    characters, and the abstract unchanged, with no ellipsis, when it has
    at most 400.  Every match of a payload is such a record of one of the
    hits of the search. *)
Theorem snippet_truncation (w : World) :
  (forall hit r a, parse_hit w hit = Ret (r, a) -> snippet_cut_from hit r)
  /\
  (forall req p out p',
      query_literature w req p = (Return out, p') ->
      exists data p1 hits,
        fetch_europepmc w (strip (symptoms req)) (top_k req) p = (Ret data, p1)
        /\ hits_of data = Ret hits
        /\ Forall (fun r => exists hit, In hit hits /\ snippet_cut_from hit r)
             (matches out)).
Proof.
  split; [apply parse_hit_snippet|].
  intros req p out p' H.
  apply query_literature_Return in H.
  destruct H as [_ [data [p1 [parsed [rs [Hf [Hp [Hr ->]]]]]]]].
  unfold parse_hits in Hp. inv_bind Hp as hits Eh.
  exists data, p1, hits. split; [exact Hf|]. split; [exact Eh|]. simpl.
  apply rmap_Forall2 in Hp.
  apply Forall_forall. intros r Hin.
  apply (rank_incl _ _ _ _ _ _ _ Hr) in Hin.
  apply in_map_iff in Hin. destruct Hin as [[r' a] [<- Hin]].
  destruct (Forall2_In_right _ _ _ _ Hp Hin) as [hit [Hhit Hparse]].
  exists hit. split; [exact Hhit|]. simpl.
  now apply parse_hit_snippet with w a.
Qed.

Lemma snippet_truncation_witness :
  (exists r a,
      parse_hit world_ranked long_hit = Ret (r, a)
      /\ m_abstract r = JStr (repeat 97%N 401)
      /\ m_snippet r = JStr (repeat 97%N 400 ++ py "..."))
  /\
  (exists r a,
      parse_hit world_ranked (JDict untitled) = Ret (r, a)
      /\ m_abstract r = JStr (py "abcde")
      /\ m_snippet r = JStr (py "abcde")).
Proof.
  split.
  - edestruct (proj1 (snippet_truncation world_ranked) long_hit)
      as [d [s [Hd [Hor [Ha [Hlong _]]]]]]; [vm_compute; reflexivity|].
    injection Hd as <-. vm_compute in Hor. injection Hor as <-.
    eexists. eexists. split; [vm_compute; reflexivity|].
    split; [exact Ha|]. rewrite Hlong; [reflexivity|].
    apply Nat.ltb_lt. reflexivity.
  - edestruct (proj1 (snippet_truncation world_ranked) (JDict untitled))
      as [d [s [Hd [Hor [Ha [_ Hshort]]]]]]; [vm_compute; reflexivity|].
    injection Hd as <-. vm_compute in Hor. injection Hor as <-.
    eexists. eexists. split; [vm_compute; reflexivity|].
    split; [exact Ha|]. rewrite Hshort; [reflexivity|].
    apply Nat.leb_le. reflexivity.
Defined.
